(** * airtable: the reflective field mapper and the request layer

    A shallow embedding of the Go package [airtable].  Two revisions of
    [airtable.go] are in the repository: the current one (rate limiter,
    [handleStruct] and friends, a [checkSetup] that panics) is modelled at top
    level, the earlier one (a [checkSetup] that returns [ErrClientSetupError])
    in [Module Legacy].

    Go's [reflect] values become a type descriptor [gotype] and a value tree
    [value]; the dynamic values that [encoding/json] stores in an
    [interface{}] become [any]; a [reflect.Value] is its storage together with
    the read-only flags that [reflect] gives a value reached through an
    unexported field; a panic is an explicit outcome that keeps the state
    reached when it was raised, since the mapper writes in place. *)

From Stdlib Require Import ZArith String List Lia.
From Stdlib Require Import Floats.SpecFloat.
From stdpp Require Import gmap strings list.

#[local] Set Warnings "-register-all".
#[local] Open Scope string_scope.
#[local] Open Scope Z_scope.

(** ** Numbers *)

(** A Go [float64]: the IEEE 754 binary64 values. *)
Definition float64 : Type := spec_float.

(** Two's complement wrap-around to an [int64]. *)
Definition wrap64 (z : Z) : Z := (z + 2 ^ 63) mod 2 ^ 64 - 2 ^ 63.

Definition in_int64 (z : Z) : bool := (- 2 ^ 63 <=? z) && (z <? 2 ^ 63).

(** The size of a Go [int]: 32 or 64 bits, as the target has it. *)
Inductive intSize := Int32 | Int64.

Definition bitsOf (sz : intSize) : Z :=
  match sz with
  | Int32 => 32
  | Int64 => 64
  end.

(** [int(x)] for [x int64]: the low bits of [x] as a signed integer. *)
Definition wrapInt (sz : intSize) (z : Z) : Z :=
  (z + 2 ^ (bitsOf sz - 1)) mod 2 ^ bitsOf sz - 2 ^ (bitsOf sz - 1).

Definition in_int (sz : intSize) (z : Z) : bool :=
  (- 2 ^ (bitsOf sz - 1) <=? z) && (z <? 2 ^ (bitsOf sz - 1)).

(** The integer part of a float, rounding toward zero; [None] for NaN and the
    infinities. *)
Definition float64_trunc (x : float64) : option Z :=
  match x with
  | S754_zero _ => Some 0
  | S754_finite s m e =>
      let a := if 0 <=? e then Z.pos m * 2 ^ e else Z.pos m / 2 ^ (- e) in
      Some (if s then - a else a)
  | S754_infinity _ | S754_nan => None
  end.

(** ** JSON documents *)

(** A document as [encoding/json] scans it: a number is its literal, the
    members of an object come in the order of the text, repeated keys
    included. *)
Inductive json :=
| JNull
| JBool (b : bool)
| JNumber (literal : string)
| JString (s : string)
| JArray (elems : list json)
| JObject (members : list (string * json)).

(** ** What the Go libraries contribute

    The parts of [encoding/json], [net/http], [path] and of the compiler that
    the package calls but does not define. *)
Class Platform := {
  (** [int64(x)] where the integer part of [x] is not an [int64]: the
      language leaves the result to the implementation. *)
  float_overflow : float64 -> Z;
  (** The size of [int]. *)
  int_size : intSize;
  (** [strconv.ParseFloat(s, 64)] on a JSON number literal: [None] when no
      [float64] holds the number. *)
  parse_float : string -> option float64;
  (** The syntax check and scan of [json.Unmarshal]: the document, or [None]
      for a syntax error. *)
  json_parse : list Byte.byte -> option json;
  (** The case-insensitive comparison of a struct field's JSON name with an
      object key that [json.Unmarshal] falls back to. *)
  fold_match : string -> string -> bool;
  (** [http.NewRequest]: the error for a URL it cannot parse. *)
  url_error : string -> option string;
  (** [path.Join] of two elements. *)
  path_join : string -> string -> string;
}.

Section Conversions.
Context `{Platform}.

(** [int64(n)] for [n float64]. *)
Definition int64_of_float64 (n : float64) : Z :=
  match float64_trunc n with
  | Some z => if in_int64 z then z else wrap64 (float_overflow n)
  | None => wrap64 (float_overflow n)
  end.

End Conversions.

(** ** Dynamic values and record shapes *)

(** What an [interface{}] holds after [encoding/json] decoded into it:
    [nil], [bool], [float64], [string], [[]interface{}] or
    [map[string]interface{}]. *)
Inductive any :=
| Nil
| ABool (b : bool)
| AFloat64 (n : float64)
| AString (s : string)
| ASlice (s : list any)
| AMap (m : gmap string any).

(** [m[key]] on a Go map: the zero value, [nil], for a missing key. *)
Definition index (m : gmap string any) (key : string) : any :=
  default Nil (m !! key).

(** The storage a [reflect.Value] designates. *)
Inductive value :=
| VBool (b : bool)
| VInt (z : Z)
| VFloat64 (n : float64)
| VString (s : string)
| VInterface (a : any)
| VNilSlice
| VSlice (elems : list value)
| VStruct (fields : list value)
| VOther.

(** A value a method returns through [reflect.Value.Call]. *)
Inductive retval :=
| RNil
| RError (msg : string)
| RValue (v : value).

(** How a call that works in place ends: normally, or in a panic; either way
    [s] is the storage as the call left it. *)
Inductive outcome (S : Type) :=
| Done (s : S)
| Panic (msg : string) (s : S).
Arguments Done {S} s.
Arguments Panic {S} msg s.

Definition stateOf {S : Type} (o : outcome S) : S :=
  match o with
  | Done s | Panic _ s => s
  end.

(** A [SelfParse] method, called through [reflect.Value.Call] on the address
    of the slot with a pointer to the raw value: what it leaves in the slot,
    and what it returns or that the call panicked, in the method or in
    [reflect] over its arguments. *)
Inductive hookResult :=
| HookReturn (s : value) (rets : list retval)
| HookPanic (msg : string) (s : value).

Definition Hook : Type := any -> value -> hookResult.

(** [reflect.StructField]: the name, the [from] entry of the tag when the tag
    has one, the type, the package path, which is empty for an exported
    field and only then, and whether the field is embedded. *)
Record StructField (T : Type) := mkStructField {
  Name : string;
  from : option string;
  Type_ : T;
  PkgPath : string;
  Anonymous : bool;
}.
Arguments mkStructField {T} Name from Type_ PkgPath Anonymous.
Arguments Name {T} _.
Arguments from {T} _.
Arguments Type_ {T} _.
Arguments PkgPath {T} _.
Arguments Anonymous {T} _.

(** An exported field that is not embedded. *)
Definition mkField {T : Type} (Name : string) (from : option string) (Type_ : T)
  : StructField T :=
  mkStructField Name from Type_ "" false.

(** The read-only bits of a [reflect.Value]: [flagStickyRO] for a value
    reached through an unexported field that is not embedded, which the
    fields below it inherit, and [flagEmbedRO] for an unexported embedded
    field itself. *)
Record flag := {
  flagStickyRO : bool;
  flagEmbedRO : bool;
}.

(** The flags of the struct a record points to, and of a fresh slice. *)
Definition flagRW : flag := {| flagStickyRO := false; flagEmbedRO := false |}.

(** [flagRO]: a value that [reflect] refuses to set or to call. *)
Definition ro (fl : flag) : bool := flagStickyRO fl || flagEmbedRO fl.

Definition unexported {T : Type} (f : StructField T) : bool :=
  negb (String.eqb (PkgPath f) "").

(** The flags of [v.Field(i)] for a struct [v] with the flags [fl]. *)
Definition fieldFlag {T : Type} (fl : flag) (f : StructField T) : flag :=
  {| flagStickyRO := flagStickyRO fl || (unexported f && negb (Anonymous f));
     flagEmbedRO := unexported f && Anonymous f |}.

(** What [reflect] panics with when [method] is used on a read-only value. *)
Definition unexportedPanic (method : string) : string :=
  "reflect: reflect.Value." +:+ method
    +:+ " using value obtained using unexported field".

(** [reflect.Type], as far as the mapper looks: the kind, the element type of
    a slice, the fields of a struct and the [SelfParse] method of its pointer
    type when there is one.  [TInterface] is an interface type without
    methods, [interface{}] or a name for it; [TInterfaceWith] is an interface
    type that has methods, with the text [reflect] prints for it.  [TOther]
    stands for every other kind. *)
Inductive gotype :=
| TBool
| TInt
| TFloat64
| TString
| TInterface
| TInterfaceWith (typ : string)
| TSlice (elem : gotype)
| TStruct (selfParse : option Hook) (fields : list (StructField gotype))
| TOther (kind : string).

(** [reflect.Kind.String]. *)
Definition kindString (t : gotype) : string :=
  match t with
  | TBool => "bool"
  | TInt => "int"
  | TFloat64 => "float64"
  | TString => "string"
  | TInterface | TInterfaceWith _ => "interface"
  | TSlice _ => "slice"
  | TStruct _ _ => "struct"
  | TOther k => k
  end.

(** The zero value of a type. *)
Fixpoint zero (t : gotype) : value :=
  match t with
  | TBool => VBool false
  | TInt => VInt 0
  | TFloat64 => VFloat64 (S754_zero false)
  | TString => VString ""
  | TInterface | TInterfaceWith _ => VInterface Nil
  | TSlice _ => VNilSlice
  | TStruct _ fs => VStruct (map (fun f => zero (Type_ f)) fs)
  | TOther _ => VOther
  end.

(** The key a field is looked up under: [fType.Name], replaced by the [from]
    tag when [fType.Tag.Lookup("from")] finds one. *)
Definition fieldKey (f : StructField gotype) : string :=
  match from f with
  | Some alias => alias
  | None => Name f
  end.

(** A type whose pointer has no [SelfParse] method. *)
Definition hookless (t : gotype) : Prop :=
  match t with
  | TStruct (Some _) _ => False
  | _ => True
  end.

(** ** The mapper *)

Definition parseError (key kind : string) : string :=
  "PARSE ERROR: could not parse column '" +:+ key +:+ "' as " +:+ kind.

Definition unhandledCase (key kind : string) : string :=
  "UNHANDLED CASE: " +:+ key +:+ " of kind " +:+ kind.

(** The text of the dynamic type of a decoded value. *)
Definition typeString (v : any) : string :=
  match v with
  | Nil => "<nil>"
  | ABool _ => "bool"
  | AFloat64 _ => "float64"
  | AString _ => "string"
  | ASlice _ => "[]interface {}"
  | AMap _ => "map[string]interface {}"
  end.

(** In each handler the type assertion comes first and the store second; the
    store panics in [reflect] when the slot is read-only. *)
Definition handleString (fl : flag) (key : string) (f : value) (v : any)
  : outcome value :=
  match v with
  | AString str =>
      if ro fl then Panic (unexportedPanic "SetString") f else Done (VString str)
  | _ => Panic (parseError key "string") f
  end.

Definition handleBool (fl : flag) (key : string) (f : value) (v : any)
  : outcome value :=
  match v with
  | ABool b =>
      if ro fl then Panic (unexportedPanic "SetBool") f else Done (VBool b)
  | _ => Panic (parseError key "bool") f
  end.

(** The message of [handleFloat] says "as int", as in the source. *)
Definition handleFloat (fl : flag) (key : string) (f : value) (v : any)
  : outcome value :=
  match v with
  | AFloat64 n =>
      if ro fl then Panic (unexportedPanic "SetFloat") f else Done (VFloat64 n)
  | _ => Panic (parseError key "int") f
  end.

(** [f.Set(reflect.ValueOf( *v))] asserts nothing: [reflect] refuses a
    read-only slot, then the zero [Value] that [ValueOf(nil)] is, then a value
    whose type does not implement the interface, which is every decoded
    value when the interface has methods. *)
Definition handleInterface (fl : flag) (key : string) (t : gotype) (f : value)
  (v : any) : outcome value :=
  if ro fl then Panic (unexportedPanic "Set") f
  else
    match v with
    | Nil => Panic "reflect: call of reflect.Value.Set on zero Value" f
    | _ =>
        match t with
        | TInterfaceWith typ =>
            Panic ("reflect.Set: value of type " +:+ typeString v
                     +:+ " is not assignable to type " +:+ typ) f
        | _ => Done (VInterface v)
        end
    end.

Section Mapper.
Context `{Platform}.

(** [int64(n)] is stored with [SetInt], which converts it to the [int] of the
    slot. *)
Definition handleInt (fl : flag) (key : string) (f : value) (v : any)
  : outcome value :=
  match v with
  | AFloat64 n =>
      if ro fl then Panic (unexportedPanic "SetInt") f
      else Done (VInt (wrapInt int_size (int64_of_float64 n)))
  | _ => Panic (parseError key "int") f
  end.

Section Loops.
(** The [switch] on the kind of the slot; the loops below are the two [for]
    statements around it. *)
Variable assign : flag -> gotype -> string -> value -> any -> outcome value.

(** [for i, v := range s]: element [i] of the fresh slice [dst], which starts
    at its zero value and can be set whatever the flags of the field are, is
    set from entry [i].  After a panic the elements not reached are still
    zero. *)
Fixpoint sliceElems (key : string) (elem : gotype) (s : list any)
  : outcome (list value) :=
  match s with
  | [] => Done []
  | v :: s' =>
      match assign flagRW elem key (zero elem) v with
      | Panic msg x => Panic msg (x :: map (fun _ => zero elem) s')
      | Done x =>
          match sliceElems key elem s' with
          | Done xs => Done (x :: xs)
          | Panic msg xs => Panic msg (x :: xs)
          end
      end
  end.

(** [for i := 0; i < sType.NumField(); i++]: field [i] of the struct, whose
    flags are [fl], is set from [m[key]], without a look at whether the key
    is there. *)
Fixpoint structFields (fl : flag) (m : gmap string any)
  (fs : list (StructField gotype)) (i : nat) (vals : list value)
  : outcome (list value) :=
  match fs with
  | [] => Done vals
  | fType :: fs' =>
      match vals !! i with
      | None => Panic "reflect: Field index out of range" vals
      | Some f =>
          let key := fieldKey fType in
          let v := index m key in
          match assign (fieldFlag fl fType) (Type_ fType) key f v with
          | Done x => structFields fl m fs' (S i) (<[i:=x]> vals)
          | Panic msg x => Panic msg (<[i:=x]> vals)
          end
      end
  end.

End Loops.

(** [handleStruct] and [handleSlice] take the flags and the type of the slot,
    which the source reads off the [reflect.Value]; [assign] is the [switch]
    that both bodies contain.  [reflect.Value.Call] refuses a method value
    got from a read-only slot, so there the hook does not run. *)
Fixpoint handleStruct (fl : flag) (key : string) (t : gotype) (s : value)
  (v : any) {struct t} : outcome value :=
  match t with
  | TStruct (Some maybeParse) _ =>
      if ro fl then Panic (unexportedPanic "Call") s
      else
        match maybeParse v s with
        | HookReturn s' _ => Done s'
        | HookPanic msg s' => Panic msg s'
        end
  | TStruct None fields =>
      match v with
      | AMap m =>
          match s with
          | VStruct vals =>
              let assign fl' t' key f v :=
                match t' with
                | TStruct _ _ => handleStruct fl' key t' f v
                | TBool => handleBool fl' key f v
                | TInt => handleInt fl' key f v
                | TFloat64 => handleFloat fl' key f v
                | TString => handleString fl' key f v
                | TSlice _ => handleSlice fl' key t' f v
                | TInterface | TInterfaceWith _ | TOther _ =>
                    Panic (unhandledCase key (kindString t')) f
                end in
              match structFields assign fl m fields 0 vals with
              | Done vals' => Done (VStruct vals')
              | Panic msg vals' => Panic msg (VStruct vals')
              end
          | _ => Panic "reflect: call of reflect.Value.Field on non-struct Value" s
          end
      | _ => Panic (parseError key "struct") s
      end
  | _ => Panic "reflect: NumField of non-struct type" s
  end
with handleSlice (fl : flag) (key : string) (t : gotype) (f : value) (v : any)
  {struct t} : outcome value :=
  match t with
  | TSlice elem =>
      match v with
      | ASlice s =>
          let assign fl' t' key f v :=
            match t' with
            | TStruct _ _ => handleStruct fl' key t' f v
            | TBool => handleBool fl' key f v
            | TInt => handleInt fl' key f v
            | TFloat64 => handleFloat fl' key f v
            | TString => handleString fl' key f v
            | TSlice _ => handleSlice fl' key t' f v
            | TInterface | TInterfaceWith _ | TOther _ =>
                Panic (unhandledCase key (kindString t')) f
            end in
          match sliceElems assign key elem s with
          | Done dst =>
              if ro fl then Panic (unexportedPanic "Set") f else Done (VSlice dst)
          | Panic msg _ => Panic msg f
          end
      | _ => Panic (parseError key "slice") f
      end
  | _ => Panic "reflect.MakeSlice of non-slice type" f
  end.

(** The [switch] of [handleSlice] and of [handleStruct], on its own. *)
Definition assignNested (fl : flag) (t : gotype) (key : string) (f : value)
  (v : any) : outcome value :=
  match t with
  | TStruct _ _ => handleStruct fl key t f v
  | TBool => handleBool fl key f v
  | TInt => handleInt fl key f v
  | TFloat64 => handleFloat fl key f v
  | TString => handleString fl key f v
  | TSlice _ => handleSlice fl key t f v
  | TInterface | TInterfaceWith _ | TOther _ =>
      Panic (unhandledCase key (kindString t)) f
  end.

(** The [switch] of [Get], which also has a case for [reflect.Interface]. *)
Definition assignTop (fl : flag) (t : gotype) (key : string) (f : value)
  (v : any) : outcome value :=
  match t with
  | TStruct _ _ => handleStruct fl key t f v
  | TBool => handleBool fl key f v
  | TInt => handleInt fl key f v
  | TFloat64 => handleFloat fl key f v
  | TString => handleString fl key f v
  | TSlice _ => handleSlice fl key t f v
  | TInterface | TInterfaceWith _ => handleInterface fl key t f v
  | TOther _ => Panic (unhandledCase key (kindString t)) f
  end.

(** The loop of [Get] over the fields of the record, whose struct can be set:
    a field whose key is missing from [resp.Fields], or is there with [nil],
    is skipped. *)
Fixpoint getFields (Fields : gmap string any) (fs : list (StructField gotype))
  (i : nat) (vals : list value) : outcome (list value) :=
  match fs with
  | [] => Done vals
  | fType :: fs' =>
      match vals !! i with
      | None => Panic "reflect: Field index out of range" vals
      | Some f =>
          let key := fieldKey fType in
          match index Fields key with
          | Nil => getFields Fields fs' (S i) vals
          | v =>
              match assignTop (fieldFlag flagRW fType) (Type_ fType) key f v with
              | Done x => getFields Fields fs' (S i) (<[i:=x]> vals)
              | Panic msg x => Panic msg (<[i:=x]> vals)
              end
          end
      end
  end.

(** The mapping part of [Get] on the struct [r.record] points to;
    [NumField] panics on anything else, naming its kind. *)
Definition getRecord (t : gotype) (s : value) (Fields : gmap string any)
  : outcome value :=
  match t, s with
  | TStruct _ fields, VStruct vals =>
      match getFields Fields fields 0 vals with
      | Done vals' => Done (VStruct vals')
      | Panic msg vals' => Panic msg (VStruct vals')
      end
  | _, _ =>
      Panic ("reflect: call of reflect.Value.NumField on " +:+ kindString t
               +:+ " Value") s
  end.

End Mapper.

(** ** Decoding with [encoding/json] *)

(** The errors the package returns.  [ErrClientSetupError] is declared by the
    earlier revision only; [SyntaxError] and [UnmarshalTypeError] are those of
    [encoding/json]; [TransportError] is whatever [net/http] or [io] reports. *)
Inductive error :=
| ErrClientSetupError (msg : string)
| ErrClientRequestError (msg : string)
| SyntaxError
| UnmarshalTypeError (Value : string) (Type_name : string)
| TransportError (msg : string).

Definition jsonKind (d : json) : string :=
  match d with
  | JNull => "null"
  | JBool _ => "bool"
  | JNumber _ => "number"
  | JString _ => "string"
  | JArray _ => "array"
  | JObject _ => "object"
  end.

(** [json.Unmarshal] goes on after a value that does not fit its target and
    reports the earliest such mismatch at the end. *)
Definition saveError (saved : option error) (e : error) : option error :=
  match saved with
  | Some _ => saved
  | None => Some e
  end.

(** Decoding into a [string]: [null] leaves the target as it is. *)
Definition decodeString (d : json) (cur : string) (saved : option error)
  : string * option error :=
  match d with
  | JString s => (s, saved)
  | JNull => (cur, saved)
  | _ => (cur, saveError saved (UnmarshalTypeError (jsonKind d) "string"))
  end.

(** [errorResponse]; [Error_Type] is [reqerr.Error.Type] and [Error_Message]
    is [reqerr.Error.Message]. *)
Record errorResponse := {
  Error_Type : string;
  Error_Message : string;
}.

(** [GetResponse]. *)
Record GetResponse := {
  ID : string;
  Fields : gmap string any;
  CreatedTime : string;
}.

(** The text [reflect] prints for the type of the field [Error] of
    [errorResponse], an anonymous struct with two tagged fields. *)
Definition dq : string := String (Ascii.ascii_of_nat 34) EmptyString.
Definition backslash : string := String (Ascii.ascii_of_nat 92) EmptyString.

Definition jsonTag (n : string) : string :=
  dq +:+ "json:" +:+ backslash +:+ dq +:+ n +:+ backslash +:+ dq +:+ dq.

Definition errorStructType : string :=
  "struct { Type string " +:+ jsonTag "type" +:+ "; Message string "
    +:+ jsonTag "message" +:+ " }".

Section Decoding.
Context `{Platform}.

(** Decoding into an [interface{}]: a number is what [strconv.ParseFloat]
    makes of its literal, and a literal it refuses leaves [nil] and is
    reported as a mismatch; a later member of an object replaces an earlier
    one with the same key. *)
Fixpoint toAny (d : json) (saved : option error) : any * option error :=
  match d with
  | JNull => (Nil, saved)
  | JBool b => (ABool b, saved)
  | JNumber literal =>
      match parse_float literal with
      | Some n => (AFloat64 n, saved)
      | None =>
          (Nil, saveError saved (UnmarshalTypeError ("number " +:+ literal) "float64"))
      end
  | JString s => (AString s, saved)
  | JArray l =>
      let '(xs, saved') :=
        (fix elems (l : list json) (saved : option error)
           : list any * option error :=
           match l with
           | [] => ([], saved)
           | d' :: l' =>
               let '(x, saved1) := toAny d' saved in
               let '(xs, saved2) := elems l' saved1 in
               (x :: xs, saved2)
           end) l saved in
      (ASlice xs, saved')
  | JObject ms =>
      let '(m, saved') :=
        (fix members (ms : list (string * json)) (m : gmap string any)
           (saved : option error) : gmap string any * option error :=
           match ms with
           | [] => (m, saved)
           | kv :: ms' =>
               let '(x, saved1) := toAny kv.2 saved in
               members ms' (<[kv.1 := x]> m) saved1
           end) ms ∅ saved in
      (AMap m, saved')
  end.

(** Decoding the members of an object into a map that is already there. *)
Fixpoint toFields (ms : list (string * json)) (m : gmap string any)
  (saved : option error) : gmap string any * option error :=
  match ms with
  | [] => (m, saved)
  | kv :: ms' =>
      let '(x, saved1) := toAny kv.2 saved in
      toFields ms' (<[kv.1 := x]> m) saved1
  end.

(** The field an object key goes to: the one with exactly that JSON name,
    else the first one that matches it case-insensitively. *)
Definition findField (names : list string) (key : string) : option string :=
  match List.find (String.eqb key) names with
  | Some n => Some n
  | None => List.find (fun n => fold_match n key) names
  end.

Definition decodeErrorMember (acc : errorResponse * option error)
  (kv : string * json) : errorResponse * option error :=
  let '(r, saved) := acc in
  match findField ["type"; "message"] kv.1 with
  | Some n =>
      if String.eqb n "type" then
        let '(s, saved') := decodeString kv.2 (Error_Type r) saved in
        ({| Error_Type := s; Error_Message := Error_Message r |}, saved')
      else
        let '(s, saved') := decodeString kv.2 (Error_Message r) saved in
        ({| Error_Type := Error_Type r; Error_Message := s |}, saved')
  | None => (r, saved)
  end.

(** Decoding into the anonymous struct of the field [Error]. *)
Definition decodeError (d : json) (acc : errorResponse * option error)
  : errorResponse * option error :=
  match d with
  | JObject ms => fold_left decodeErrorMember ms acc
  | JNull => acc
  | _ => (acc.1, saveError acc.2 (UnmarshalTypeError (jsonKind d) errorStructType))
  end.

Definition decodeErrorResponse (d : json) : errorResponse * option error :=
  let start := ({| Error_Type := ""; Error_Message := "" |}, None) in
  match d with
  | JObject ms =>
      fold_left
        (fun acc kv =>
           match findField ["error"] kv.1 with
           | Some _ => decodeError kv.2 acc
           | None => acc
           end) ms start
  | JNull => start
  | _ => (start.1, Some (UnmarshalTypeError (jsonKind d) "airtable.errorResponse"))
  end.

(** [json.Unmarshal(b, &reqerr)]. *)
Definition Unmarshal_errorResponse (b : list Byte.byte)
  : errorResponse * option error :=
  match json_parse b with
  | None => ({| Error_Type := ""; Error_Message := "" |}, Some SyntaxError)
  | Some d => decodeErrorResponse d
  end.

Definition checkErrorResponse (b : list Byte.byte) : option error :=
  let '(reqerr, jsonerr) := Unmarshal_errorResponse b in
  match jsonerr with
  | Some e => Some e
  | None =>
      if String.eqb (Error_Type reqerr) "" then None
      else Some (ErrClientRequestError (Error_Message reqerr))
  end.

Definition decodeGetMember (acc : GetResponse * option error)
  (kv : string * json) : GetResponse * option error :=
  let '(r, saved) := acc in
  match findField ["id"; "fields"; "createdTime"] kv.1 with
  | Some n =>
      if String.eqb n "id" then
        let '(s, saved') := decodeString kv.2 (ID r) saved in
        ({| ID := s; Fields := Fields r; CreatedTime := CreatedTime r |}, saved')
      else if String.eqb n "fields" then
        match kv.2 with
        | JObject ms =>
            let '(m, saved') := toFields ms (Fields r) saved in
            ({| ID := ID r; Fields := m; CreatedTime := CreatedTime r |}, saved')
        | JNull =>
            ({| ID := ID r; Fields := ∅; CreatedTime := CreatedTime r |}, saved)
        | d =>
            (r, saveError saved
                  (UnmarshalTypeError (jsonKind d) "map[string]interface {}"))
        end
      else
        let '(s, saved') := decodeString kv.2 (CreatedTime r) saved in
        ({| ID := ID r; Fields := Fields r; CreatedTime := s |}, saved')
  | None => (r, saved)
  end.

(** [json.Unmarshal(bytes, &resp)]. *)
Definition Unmarshal_GetResponse (b : list Byte.byte)
  : GetResponse * option error :=
  let start := ({| ID := ""; Fields := ∅; CreatedTime := "" |}, None) in
  match json_parse b with
  | None => (start.1, Some SyntaxError)
  | Some (JObject ms) => fold_left decodeGetMember ms start
  | Some JNull => start
  | Some d =>
      (start.1, Some (UnmarshalTypeError (jsonKind d) "airtable.GetResponse"))
  end.

(** The values of the members of an object that go to the field [n]. *)
Definition membersFor (names : list string) (n : string)
  (ms : list (string * json)) : list json :=
  map snd (List.filter (fun kv => bool_decide (findField names kv.1 = Some n)) ms).

(** The error envelope of the service: an object whose one [error] member is
    an object with a string [type] and a string [message]. *)
Definition errorEnvelope (d : json) (type message : string) : Prop :=
  exists ms es,
    d = JObject ms
    /\ membersFor ["error"] "error" ms = [JObject es]
    /\ membersFor ["type"; "message"] "type" es = [JString type]
    /\ membersFor ["type"; "message"] "message" es = [JString message].

End Decoding.

(** The string a field ends with after the values [ds] were decoded into it
    in turn, when each is a string or [null]. *)
Definition lastString (ds : list json) (cur : string) : string :=
  fold_left (fun c d => match d with JString s => s | _ => c end) ds cur.

Definition stringOrNull (d : json) : Prop :=
  match d with
  | JString _ | JNull => True
  | _ => False
  end.

Definition objectOrNull (d : json) : Prop :=
  match d with
  | JObject _ | JNull => True
  | _ => False
  end.

Definition membersOf (d : json) : list (string * json) :=
  match d with
  | JObject ms => ms
  | _ => []
  end.

Section Envelopes.
Context `{Platform}.

(** What a body with the members [ms] has for the fields of [errorResponse]:
    the members of the objects among its members for [error], in the order
    of the text, and of these the values for [type] and for [message]. *)
Definition errorMembers (ms : list (string * json)) : list (string * json) :=
  flat_map membersOf (membersFor ["error"] "error" ms).

Definition errorTypes (ms : list (string * json)) : list json :=
  membersFor ["type"; "message"] "type" (errorMembers ms).

Definition errorMessages (ms : list (string * json)) : list json :=
  membersFor ["type"; "message"] "message" (errorMembers ms).

(** Every value that goes to a field of [errorResponse] is of a kind the
    field takes: an object or [null] for [Error], a string or [null] for
    [Type] and [Message]. *)
Definition errorFits (ms : list (string * json)) : Prop :=
  Forall objectOrNull (membersFor ["error"] "error" ms)
  /\ Forall stringOrNull (errorTypes ms)
  /\ Forall stringOrNull (errorMessages ms).

End Envelopes.

(** No error, or a mismatch between a JSON value and its Go target. *)
Definition typeErrorOrNone (saved : option error) : Prop :=
  match saved with
  | None | Some (UnmarshalTypeError _ _) => True
  | Some _ => False
  end.

(** ** The client and the transport *)

Definition defaultRootURL : string := "https://api.airtable.com".
Definition defaultVersion : string := "v0".

(** An [*http.Request]. *)
Record Request := {
  Method : string;
  URL : string;
  Header : list (string * string);
}.

(** What [HTTPClient.Do] followed by [ioutil.ReadAll(resp.Body)] comes to. *)
Inductive response :=
| DoError (msg : string)
| ReadError (msg : string)
| Body (b : list Byte.byte).

(** [Client]; [HTTPClient] is [None] for a nil pointer. *)
Record Client := {
  APIKey : string;
  BaseID : string;
  Version : string;
  RootURL : string;
  HTTPClient : option (Request -> response);
}.

Definition set_Version (c : Client) (v : string) : Client :=
  {| APIKey := APIKey c; BaseID := BaseID c; Version := v;
     RootURL := RootURL c; HTTPClient := HTTPClient c |}.

Definition set_RootURL (c : Client) (u : string) : Client :=
  {| APIKey := APIKey c; BaseID := BaseID c; Version := Version c;
     RootURL := u; HTTPClient := HTTPClient c |}.

(** A [QueryEncoder], reduced to what [Encode] returns. *)
Record QueryEncoder := { Encode : string }.

(** What lies outside the client: the environment variable the limiter is
    switched off by, the tokens taken from the package-level [limiter], and
    the requests handed to an HTTP client, latest first. *)
Record World := {
  AIRTABLE_NO_LIMIT : string;
  limiterTakes : nat;
  sent : list Request;
}.

Definition take (w : World) : World :=
  {| AIRTABLE_NO_LIMIT := AIRTABLE_NO_LIMIT w;
     limiterTakes := S (limiterTakes w); sent := sent w |}.

Definition send (req : Request) (w : World) : World :=
  {| AIRTABLE_NO_LIMIT := AIRTABLE_NO_LIMIT w;
     limiterTakes := limiterTakes w; sent := req :: sent w |}.

(** How a function that returns values ends. *)
Inductive result (A : Type) :=
| Return (a : A)
| Panicked (msg : string).
Arguments Return {A} a.
Arguments Panicked {A} msg.

Definition checkSetup (c : Client) : outcome Client :=
  if String.eqb (BaseID c) "" then Panic "airtable: Client missing BaseID" c
  else if String.eqb (APIKey c) "" then Panic "airtable: Client missing APIKey" c
  else
    match HTTPClient c with
    | None => Panic "airtable: missing HTTP client" c
    | Some _ =>
        let c1 := if String.eqb (Version c) "" then set_Version c defaultVersion else c in
        let c2 := if String.eqb (RootURL c1) "" then set_RootURL c1 defaultRootURL else c1 in
        Done c2
    end.

Definition makeURL (c : Client) (resource : string) (options : QueryEncoder)
  : string :=
  let q := Encode options in
  RootURL c +:+ "/" +:+ Version c +:+ "/" +:+ BaseID c +:+ "/" +:+ resource
    +:+ "?" +:+ q.

(** A [Resource]; its [client] is the client of the state, and [record], an
    [interface{}], is the dynamic type together with the address it holds. *)
Record Resource := {
  name : string;
  recordType : gotype;
  record : positive;
}.

(** The client, the structs that records point to, and the world. *)
Record State := {
  client : Client;
  heap : gmap positive value;
  world : World;
}.

(** [NewResource], for the client of the state. *)
Definition NewResource (name : string) (record : gotype * positive) : Resource :=
  {| name := name; recordType := record.1; record := record.2 |}.

(** The request [RequestBytes] builds: a GET of the URL of [makeURL] with the
    bearer header; [nil] options are replaced by an empty [url.Values]. *)
Definition newRequest (c : Client) (endpoint : string)
  (options : option QueryEncoder) : Request :=
  {| Method := "GET";
     URL := makeURL c endpoint (default {| Encode := "" |} options);
     Header := [("Authorization", "Bearer " +:+ APIKey c)] |}.

(** The URL a configured client asks for. *)
Definition requestURL (c : Client) (endpoint : string)
  (options : option QueryEncoder) : string :=
  (if String.eqb (RootURL c) "" then "https://api.airtable.com" else RootURL c)
    +:+ "/" +:+ (if String.eqb (Version c) "" then "v0" else Version c)
    +:+ "/" +:+ BaseID c +:+ "/" +:+ endpoint +:+ "?"
    +:+ match options with Some q => Encode q | None => "" end.

Section Transport.
Context `{Platform}.

(** [RequestBytes]: the returned pair is ([bytes], [err]), [None] for nil. *)
Definition RequestBytes (method endpoint : string)
  (options : option QueryEncoder) (c : Client) (w : World)
  : result (option (list Byte.byte) * option error) * Client * World :=
  match checkSetup c with
  | Panic msg c' => (Panicked msg, c', w)
  | Done c' =>
      let req := newRequest c' endpoint options in
      match url_error (URL req) with
      | Some e => (Return (None, Some (TransportError e)), c', w)
      | None =>
          let w1 := if String.eqb (AIRTABLE_NO_LIMIT w) "" then take w else w in
          match HTTPClient c' with
          | None => (Panicked "invalid memory address or nil pointer dereference", c', w1)
          | Some Do =>
              let w2 := send req w1 in
              match Do req with
              | DoError e => (Return (None, Some (TransportError e)), c', w2)
              | ReadError e => (Return (None, Some (TransportError e)), c', w2)
              | Body bytes =>
                  match checkErrorResponse bytes with
                  | Some err => (Return (Some bytes, Some err), c', w2)
                  | None => (Return (Some bytes, None), c', w2)
                  end
              end
          end
      end
  end.

(** [Get]: the returned pair is ([*GetResponse], [err]). *)
Definition Get (r : Resource) (id : string) (options : option QueryEncoder)
  (st : State) : result (option GetResponse * option error) * State :=
  let fullid := path_join (name r) id in
  let '(res, c, w) := RequestBytes "GET" fullid options (client st) (world st) in
  let st1 := {| client := c; heap := heap st; world := w |} in
  match res with
  | Panicked msg => (Panicked msg, st1)
  | Return (_, Some err) => (Return (None, Some err), st1)
  | Return (bytes, None) =>
      match Unmarshal_GetResponse (default [] bytes) with
      | (_, Some err) => (Return (None, Some err), st1)
      | (resp, None) =>
          match heap st1 !! record r with
          | None => (Panicked "reflect: call of reflect.Value.Elem on zero Value", st1)
          | Some s =>
              match getRecord (recordType r) s (Fields resp) with
              | Done s' =>
                  (Return (Some resp, None),
                   {| client := c; heap := <[record r := s']> (heap st); world := w |})
              | Panic msg s' =>
                  (Panicked msg,
                   {| client := c; heap := <[record r := s']> (heap st); world := w |})
              end
          end
      end
  end.

End Transport.

(** The struct at address [a] is not the same before and after. *)
Definition written (st st' : State) (a : positive) : Prop :=
  heap st !! a <> heap st' !! a.

(** ** Two calls in their loops at once *)

Section Interleaving.
Context `{Platform}.

(** The body of the loop of [Get], for field [i] of the struct. *)
Definition getField (Fields : gmap string any) (fType : StructField gotype)
  (i : nat) (vals : list value) : outcome (list value) :=
  match vals !! i with
  | None => Panic "reflect: Field index out of range" vals
  | Some f =>
      let key := fieldKey fType in
      match index Fields key with
      | Nil => Done vals
      | v =>
          match assignTop (fieldFlag flagRW fType) (Type_ fType) key f v with
          | Done x => Done (<[i:=x]> vals)
          | Panic msg x => Panic msg (<[i:=x]> vals)
          end
      end
  end.

(** A call of [Get] that has reached its loop: the address of the struct of
    its record, the fields it decoded, and the fields of the struct it has
    yet to go through, which start at index [position]. *)
Record mapping := {
  target : positive;
  decoded : gmap string any;
  todo : list (StructField gotype);
  position : nat;
}.

(** The call goes through the body of its loop once; a call that is through
    with its fields does nothing. *)
Definition stepMapping (g : mapping) (h : gmap positive value)
  : outcome (mapping * gmap positive value) :=
  match todo g with
  | [] => Done (g, h)
  | fType :: fs =>
      match h !! target g with
      | Some (VStruct vals) =>
          match getField (decoded g) fType (position g) vals with
          | Done vals' =>
              Done ({| target := target g; decoded := decoded g; todo := fs;
                       position := S (position g) |},
                    <[target g := VStruct vals']> h)
          | Panic msg vals' => Panic msg (g, <[target g := VStruct vals']> h)
          end
      | _ => Panic "reflect: call of reflect.Value.Field on non-struct Value" (g, h)
      end
  end.

(** Two calls in their loops, run in the order a schedule gives: at [true]
    the first call goes through the body of its loop once, at [false] the
    second.  A panic ends the run. *)
Fixpoint interleave (schedule : list bool) (g1 g2 : mapping)
  (h : gmap positive value) : outcome (mapping * mapping * gmap positive value) :=
  match schedule with
  | [] => Done (g1, g2, h)
  | true :: schedule' =>
      match stepMapping g1 h with
      | Done (g1', h') => interleave schedule' g1' g2 h'
      | Panic msg (g1', h') => Panic msg (g1', g2, h')
      end
  | false :: schedule' =>
      match stepMapping g2 h with
      | Done (g2', h') => interleave schedule' g1 g2' h'
      | Panic msg (g2', h') => Panic msg (g1, g2', h')
      end
  end.

End Interleaving.

(** ** The earlier revision of [airtable.go] *)

Module Legacy.

(** [Client] has no [HTTPClient] field. *)
Record Client := {
  APIKey : string;
  BaseID : string;
  Version : string;
  RootURL : string;
}.

(** [checkSetup] returns the error and leaves the client as it now is. *)
Definition checkSetup (c : Client) : option error * Client :=
  if String.eqb (BaseID c) "" then
    (Some (ErrClientSetupError "Client missing BaseID"), c)
  else if String.eqb (APIKey c) "" then
    (Some (ErrClientSetupError "Client missing APIKey"), c)
  else
    let c1 :=
      if String.eqb (Version c) "" then
        {| APIKey := APIKey c; BaseID := BaseID c; Version := defaultVersion;
           RootURL := RootURL c |}
      else c in
    let c2 :=
      if String.eqb (RootURL c1) "" then
        {| APIKey := APIKey c1; BaseID := BaseID c1; Version := Version c1;
           RootURL := defaultRootURL |}
      else c1 in
    (None, c2).

Definition makeURL (c : Client) (resource : string) (options : QueryEncoder)
  : string :=
  let q := Encode options in
  RootURL c +:+ "/" +:+ Version c +:+ "/" +:+ BaseID c +:+ "/" +:+ resource
    +:+ "?" +:+ q.

(** What [fmt.Println(reflect.TypeOf(value))] prints for a decoded value. *)
Definition typeOf (v : any) : string :=
  match v with
  | Nil => "<nil>"
  | ABool _ => "bool"
  | AFloat64 _ => "float64"
  | AString _ => "string"
  | ASlice _ => "[]interface {}"
  | AMap _ => "map[string]interface {}"
  end.

Definition newline : string := String (Ascii.ascii_of_nat 10) EmptyString.

(** What the [switch] of the earlier [Get] prints for a kind other than
    [reflect.String]; it stores nothing for these kinds. *)
Definition kindNote (t : gotype) (key : string) (value : any) : string :=
  match t with
  | TSlice _ => typeOf value +:+ newline +:+ key +:+ " (slice)"
  | TString => key +:+ " (string)"
  | TInt => key +:+ " (int)"
  | TStruct _ _ => key +:+ " (struct)"
  | TBool => key +:+ " (bool)"
  | TInterface | TInterfaceWith _ => key +:+ " (interface)"
  | TFloat64 | TOther _ => key +:+ " (unknown)"
  end.

(** The loop of the earlier [Get]: the state is the fields of the record and
    what was written to the standard output.  [f.SetString] panics in
    [reflect] when the field is unexported, before anything is printed for
    it. *)
Fixpoint getFields (Fields : gmap string any) (fs : list (StructField gotype))
  (i : nat) (st : list value * string) : outcome (list value * string) :=
  match fs with
  | [] => Done st
  | fType :: fs' =>
      match st.1 !! i with
      | None => Panic "reflect: Field index out of range" st
      | Some f =>
          let key := fieldKey fType in
          match index Fields key with
          | Nil => getFields Fields fs' (S i) st
          | value =>
              match Type_ fType, value with
              | TString, AString s =>
                  if ro (fieldFlag flagRW fType) then
                    Panic (unexportedPanic "SetString") st
                  else
                    getFields Fields fs' (S i)
                      (<[i:=VString s]> st.1,
                       st.2 +:+ kindNote TString key value +:+ newline)
              | TString, _ => Panic "could not assert value as string" st
              | t, _ =>
                  getFields Fields fs' (S i)
                    (st.1, st.2 +:+ kindNote t key value +:+ newline)
              end
          end
      end
  end.

(** The client, the structs that records point to, the world and the
    standard output. *)
Record State := {
  client : Client;
  heap : gmap positive value;
  world : World;
  stdout : string;
}.

Section Transport.
Context `{Platform}.
(** The zero [http.Client] that [RequestBytes] declares: the default
    transport of the process. *)
Variable httpclient : Request -> response.

Definition RequestBytes (resource : string) (options : option QueryEncoder)
  (c : Client) (w : World)
  : (option (list Byte.byte) * option error) * Client * World :=
  match checkSetup c with
  | (Some err, c') => ((None, Some err), c', w)
  | (None, c') =>
      let options := default {| Encode := "" |} options in
      let url := makeURL c' resource options in
      match url_error url with
      | Some e => ((None, Some (TransportError e)), c', w)
      | None =>
          let req := {| Method := "GET"; URL := url;
                        Header := [("Authorization", "Bearer " +:+ APIKey c')] |} in
          let w1 := send req w in
          match httpclient req with
          | DoError e => ((None, Some (TransportError e)), c', w1)
          | ReadError e => ((None, Some (TransportError e)), c', w1)
          | Body bytes =>
              match checkErrorResponse bytes with
              | Some err => ((Some bytes, Some err), c', w1)
              | None => ((Some bytes, None), c', w1)
              end
          end
      end
  end.

(** [Get] of the earlier revision; the endpoint is [r.name + "/" + id]. *)
Definition Get (r : Resource) (id : string) (options : option QueryEncoder)
  (st : State) : result (option GetResponse * option error) * State :=
  let fullid := name r +:+ "/" +:+ id in
  let '(res, c, w) := RequestBytes fullid options (client st) (world st) in
  let st1 := {| client := c; heap := heap st; world := w; stdout := stdout st |} in
  match res with
  | (_, Some err) => (Return (None, Some err), st1)
  | (bytes, None) =>
      match Unmarshal_GetResponse (default [] bytes) with
      | (_, Some err) => (Return (None, Some err), st1)
      | (resp, None) =>
          match heap st !! record r with
          | None => (Panicked "reflect: call of reflect.Value.Elem on zero Value", st1)
          | Some s =>
              match recordType r, s with
              | TStruct _ fields, VStruct vals =>
                  match getFields (Fields resp) fields 0 (vals, stdout st) with
                  | Done (vals', out) =>
                      (Return (Some resp, None),
                       {| client := c; heap := <[record r := VStruct vals']> (heap st);
                          world := w; stdout := out |})
                  | Panic msg (vals', out) =>
                      (Panicked msg,
                       {| client := c; heap := <[record r := VStruct vals']> (heap st);
                          world := w; stdout := out |})
                  end
              | t, _ =>
                  (Panicked ("reflect: call of reflect.Value.NumField on "
                               +:+ kindString t +:+ " Value"),
                   st1)
              end
          end
      end
  end.

End Transport.

End Legacy.

(** ** Well-typed storage *)

(** The storage [x] has the shape of the type [t]: what [reflect] lets a
    value of that type hold. *)
Fixpoint hasType (t : gotype) (x : value) : bool :=
  match t, x with
  | TBool, VBool _ => true
  | TInt, VInt _ => true
  | TFloat64, VFloat64 _ => true
  | TString, VString _ => true
  | TInterface, VInterface _ => true
  | TInterfaceWith _, VInterface _ => true
  | TOther _, VOther => true
  | TSlice _, VNilSlice => true
  | TSlice elem, VSlice xs => forallb (hasType elem) xs
  | TStruct _ fs, VStruct vals =>
      (fix fields (fs : list (StructField gotype)) (vals : list value) : bool :=
         match fs, vals with
         | [], [] => true
         | f :: fs', x :: vals' => hasType (Type_ f) x && fields fs' vals'
         | _, _ => false
         end) fs vals
  | _, _ => false
  end.

(** Every [SelfParse] hook in the type leaves a well-typed slot well-typed,
    as a method on the pointer to the struct does. *)
Fixpoint hooksKeepType (t : gotype) : Prop :=
  match t with
  | TStruct (Some maybeParse) _ =>
      forall v s, hasType t s = true ->
        match maybeParse v s with
        | HookReturn s' _ | HookPanic _ s' => hasType t s' = true
        end
  | TStruct None fs =>
      (fix fields (fs : list (StructField gotype)) : Prop :=
         match fs with
         | [] => True
         | f :: fs' => hooksKeepType (Type_ f) /\ fields fs'
         end) fs
  | TSlice elem => hooksKeepType elem
  | _ => True
  end.

(** No struct in the type has a [SelfParse] hook. *)
Fixpoint hookfree (t : gotype) : Prop :=
  match t with
  | TStruct (Some _) _ => False
  | TStruct None fs =>
      (fix fields (fs : list (StructField gotype)) : Prop :=
         match fs with
         | [] => True
         | f :: fs' => hookfree (Type_ f) /\ fields fs'
         end) fs
  | TSlice elem => hookfree elem
  | _ => True
  end.

(** Induction on a type that reaches the types of the fields of a struct. *)
Fixpoint gotype_nested_ind (P : gotype -> Prop)
  (HBool : P TBool) (HInt : P TInt) (HFloat64 : P TFloat64)
  (HString : P TString) (HInterface : P TInterface)
  (HInterfaceWith : forall typ, P (TInterfaceWith typ))
  (HSlice : forall elem, P elem -> P (TSlice elem))
  (HStruct : forall selfParse fs,
      Forall (fun f => P (Type_ f)) fs -> P (TStruct selfParse fs))
  (HOther : forall kind, P (TOther kind)) (t : gotype) {struct t} : P t :=
  match t with
  | TBool => HBool
  | TInt => HInt
  | TFloat64 => HFloat64
  | TString => HString
  | TInterface => HInterface
  | TInterfaceWith typ => HInterfaceWith typ
  | TSlice elem =>
      HSlice elem
        (gotype_nested_ind P HBool HInt HFloat64 HString HInterface
           HInterfaceWith HSlice HStruct HOther elem)
  | TStruct selfParse fs =>
      HStruct selfParse fs
        ((fix fields (fs : list (StructField gotype))
            : Forall (fun f => P (Type_ f)) fs :=
            match fs with
            | [] => Stdlib.Lists.List.Forall_nil _
            | f :: fs' =>
                Stdlib.Lists.List.Forall_cons _ f fs'
                  (gotype_nested_ind P HBool HInt HFloat64 HString HInterface
                     HInterfaceWith HSlice HStruct HOther (Type_ f))
                  (fields fs')
            end) fs)
  | TOther kind => HOther kind
  end.

(** ** What a loop over the fields did *)

Section FieldResults.
Variable assign : flag -> gotype -> string -> value -> any -> outcome value.
(** The flags of the struct whose fields the loop goes over. *)
Variable fl : flag.
Variable m : gmap string any.

(** Field [k], of type descriptor [fType], was set from [m] at its key. *)
Definition mapped (vals vals' : list value) (k : nat)
  (fType : StructField gotype) : Prop :=
  exists f x,
    vals !! k = Some f
    /\ assign (fieldFlag fl fType) (Type_ fType) (fieldKey fType) f
         (index m (fieldKey fType)) = Done x
    /\ vals' !! k = Some x.

(** Field [k] is where the loop stopped with the panic [msg]. *)
Definition failed (vals vals' : list value) (k : nat)
  (fType : StructField gotype) (msg : string) : Prop :=
  (vals !! k = None /\ vals' !! k = None)
  \/ exists f x,
       vals !! k = Some f
       /\ assign (fieldFlag fl fType) (Type_ fType) (fieldKey fType) f
            (index m (fieldKey fType)) = Panic msg x
       /\ vals' !! k = Some x.

(** What a loop over the fields [all] made of [vals]: ended normally, every
    field was set; ended in a panic at field [j], the fields before it were
    set and the fields after it are as they were. *)
Definition fieldsResult (all : list (StructField gotype)) (vals : list value)
  (o : outcome (list value)) : Prop :=
  length (stateOf o) = length vals
  /\ (forall k, (length all <= k)%nat -> stateOf o !! k = vals !! k)
  /\ match o with
     | Done vals' =>
         forall k fType, all !! k = Some fType -> mapped vals vals' k fType
     | Panic msg vals' =>
         exists j fType,
           all !! j = Some fType
           /\ failed vals vals' j fType msg
           /\ (forall k, (j < k)%nat -> vals' !! k = vals !! k)
           /\ (forall k fType', (k < j)%nat -> all !! k = Some fType' ->
                 mapped vals vals' k fType')
     end.

End FieldResults.

(** The fields of a struct put back into the struct. *)
Definition wrapStruct (o : outcome (list value)) : outcome value :=
  match o with
  | Done vals => Done (VStruct vals)
  | Panic msg vals => Panic msg (VStruct vals)
  end.

(** What a call of the hook comes to for the mapping: the slot as the hook
    left it, and the panic when the hook panicked. *)
Definition hookOutcome (r : hookResult) : outcome value :=
  match r with
  | HookReturn s' _ => Done s'
  | HookPanic msg s' => Panic msg s'
  end.

(** The [switch] of [Get] behind its test for [nil]. *)
Definition assignPresent `{Platform} (fl : flag) (t : gotype) (key : string)
  (f : value) (v : any) : outcome value :=
  match v with
  | Nil => Done f
  | _ => assignTop fl t key f v
  end.

(** The JSON value is of the type the handler of the kind asserts;
    [handleInterface] asserts nothing. *)
Definition accepts (t : gotype) (v : any) : bool :=
  match t, v with
  | TBool, ABool _ => true
  | TInt, AFloat64 _ => true
  | TFloat64, AFloat64 _ => true
  | TString, AString _ => true
  | TSlice _, ASlice _ => true
  | TStruct _ _, AMap _ => true
  | TInterface, _ => true
  | TInterfaceWith _, _ => true
  | _, _ => false
  end.

(** The kind a parse error names for a slot; [handleFloat] says "int". *)
Definition namedKind (t : gotype) : string :=
  match t with
  | TBool => "bool"
  | TInt | TFloat64 => "int"
  | TString => "string"
  | TSlice _ => "slice"
  | TStruct _ _ => "struct"
  | TInterface | TInterfaceWith _ | TOther _ => kindString t
  end.

(** ** Record shapes of the package, and sample data *)

(** [AttachmentThumbnail]; its tags are [json] tags, so no field has a [from]
    entry. *)
Definition AttachmentThumbnail : gotype :=
  TStruct None
    [mkField "URL" None TString; mkField "Width" None TInt;
     mkField "Height" None TInt].

(** A record with one nested struct and an aliased column. *)
Definition ThumbRecord : gotype :=
  TStruct None
    [mkField "Name" None TString;
     mkField "Thumb" (Some "Thumbnail") AttachmentThumbnail].



(** The request of the test suite that the service refuses, and two bodies
    that are JSON but no envelope. *)
Definition quoted (s : string) : string := dq +:+ s +:+ dq.

Definition errorBody : string :=
  "{" +:+ quoted "error" +:+ ":{" +:+ quoted "type" +:+ ":"
    +:+ quoted "INVALID_FILTER" +:+ "," +:+ quoted "message" +:+ ":"
    +:+ quoted "bad formula" +:+ "}}".

Definition errorDocument : json :=
  JObject [("error", JObject [("type", JString "INVALID_FILTER");
                              ("message", JString "bad formula")])].

(** An envelope whose message is a number, and one without a message. *)
Definition numberMessageBody : string :=
  "{" +:+ quoted "error" +:+ ":{" +:+ quoted "type" +:+ ":"
    +:+ quoted "INVALID_FILTER" +:+ "," +:+ quoted "message" +:+ ":5}}".

Definition numberMessageDocument : json :=
  JObject [("error", JObject [("type", JString "INVALID_FILTER");
                              ("message", JNumber "5")])].

Definition noMessageBody : string :=
  "{" +:+ quoted "error" +:+ ":{" +:+ quoted "type" +:+ ":"
    +:+ quoted "NOT_FOUND" +:+ "}}".

Definition noMessageDocument : json :=
  JObject [("error", JObject [("type", JString "NOT_FOUND")])].

Definition recordBody : string :=
  "{" +:+ quoted "id" +:+ ":" +:+ quoted "rec1" +:+ "," +:+ quoted "fields"
    +:+ ":{" +:+ quoted "Name" +:+ ":" +:+ quoted "Tom" +:+ "}}".

Definition recordDocument : json :=
  JObject [("id", JString "rec1"); ("fields", JObject [("Name", JString "Tom")])].

(** A record with a number that no [float64] holds. *)
Definition hugeNumberBody : string :=
  "{" +:+ quoted "id" +:+ ":" +:+ quoted "rec3" +:+ "," +:+ quoted "fields"
    +:+ ":{" +:+ quoted "Rating" +:+ ":1e400}}".

Definition hugeNumberDocument : json :=
  JObject [("id", JString "rec3"); ("fields", JObject [("Rating", JNumber "1e400")])].

Definition recordBody2 : string :=
  "{" +:+ quoted "id" +:+ ":" +:+ quoted "rec2" +:+ "," +:+ quoted "fields"
    +:+ ":{" +:+ quoted "Name" +:+ ":" +:+ quoted "Ann" +:+ "}}".

Definition recordDocument2 : json :=
  JObject [("id", JString "rec2"); ("fields", JObject [("Name", JString "Ann")])].

Definition sampleBodies : list (string * json) :=
  [(errorBody, errorDocument);
   (numberMessageBody, numberMessageDocument);
   (noMessageBody, noMessageDocument);
   (recordBody, recordDocument);
   (recordBody2, recordDocument2);
   (hugeNumberBody, hugeNumberDocument);
   ("null", JNull);
   ("[]", JArray [])].

(** A platform to run the definitions on: it reads the sample bodies and
    nothing else as JSON, and of the number literals [5] and [0]; it matches
    keys exactly only, accepts every URL, has an [int] of 64 bits and
    converts a float without an [int64] integer part to [0]. *)
Definition samplePlatform : Platform :=
  {| float_overflow := fun _ => 0;
     json_parse := fun b =>
       snd <$> List.find (fun p => String.eqb p.1 (string_of_list_byte b))
                 sampleBodies;
     int_size := Int64;
     parse_float := fun literal =>
       snd <$> List.find (fun p => String.eqb p.1 literal)
                 [("5", S754_finite false 5 0); ("0", S754_zero false)];
     fold_match := fun _ _ => false;
     url_error := fun _ => None;
     path_join := fun a b => a +:+ "/" +:+ b |}.

(** An HTTP client that plays back a body per URL, as the wiretap of the test
    suite does. *)
Definition sampleTransport (req : Request) : response :=
  let base := "https://api.airtable.com/v0/appXXX/" in
  match List.find (fun p => String.eqb (base +:+ p.1) (URL req))
          [("Main/rec1?", recordBody); ("Main/rec2?", recordBody2);
           ("Main/rec3?", hugeNumberBody);
           ("Main?fields=bad", errorBody); ("Main?fields=5", numberMessageBody);
           ("Main/rec0?", noMessageBody); ("Null?", "null"); ("List?", "[]")]
  with
  | Some p => Body (list_byte_of_string p.2)
  | None => DoError "no such host"
  end.

Definition sampleClient : Client :=
  {| APIKey := "key123"; BaseID := "appXXX"; Version := ""; RootURL := "";
     HTTPClient := Some sampleTransport |}.

(** A client without a base identifier. *)
Definition unsetClient : Client :=
  {| APIKey := "key123"; BaseID := ""; Version := ""; RootURL := "";
     HTTPClient := Some sampleTransport |}.

(** A client without an HTTP client, and without a version and a root URL. *)
Definition noTransportClient : Client :=
  {| APIKey := "key123"; BaseID := "appXXX"; Version := ""; RootURL := "";
     HTTPClient := None |}.

Definition unsetLegacyClient : Legacy.Client :=
  {| Legacy.APIKey := ""; Legacy.BaseID := "appXXX"; Legacy.Version := "";
     Legacy.RootURL := "" |}.

Definition sampleWorld : World :=
  {| AIRTABLE_NO_LIMIT := ""; limiterTakes := 0; sent := [] |}.

(** A record with the one column [Name], at address 1 of the heap. *)
Definition NameRecord : gotype := TStruct None [mkField "Name" None TString].


Definition sampleState : State :=
  {| client := sampleClient; heap := {[ 1%positive := zero NameRecord ]};
     world := sampleWorld |}.

(** Two records of the same shape, at the addresses 1 and 2. *)
Definition twoRecordState : State :=
  {| client := sampleClient;
     heap := {[ 1%positive := zero NameRecord; 2%positive := zero NameRecord ]};
     world := sampleWorld |}.

(** * Properties *)

Section MapperFacts.
Context `{Platform}.

Lemma handleStruct_generic fl key fields vals m :
  handleStruct fl key (TStruct None fields) (VStruct vals) (AMap m) =
  match structFields assignNested fl m fields 0 vals with
  | Done vals' => Done (VStruct vals')
  | Panic msg vals' => Panic msg (VStruct vals')
  end.
Proof. reflexivity. Qed.

Lemma handleSlice_array fl key elem f s :
  handleSlice fl key (TSlice elem) f (ASlice s) =
  match sliceElems assignNested key elem s with
  | Done dst => if ro fl then Panic (unexportedPanic "Set") f else Done (VSlice dst)
  | Panic msg _ => Panic msg f
  end.
Proof. reflexivity. Qed.

(** The nested [switch] panics on [nil] for every type without a hook. *)
Lemma assignNested_nil fl t key f :
  hookless t -> exists msg, assignNested fl t key f Nil = Panic msg f.
Proof.
  destruct t as [| | | | | typ | elem | [h|] fs | k]; simpl; intros Hh;
    try contradiction; eauto.
Qed.

Lemma structFields_missing_key fl m fs : forall i vals fType,
  In fType fs -> hookless (Type_ fType) -> index m (fieldKey fType) = Nil ->
  exists msg vals', structFields assignNested fl m fs i vals = Panic msg vals'.
Proof.
  induction fs as [|g fs IH]; intros i vals fType Hin Hh Hnil; [destruct Hin|].
  simpl. destruct (vals !! i) as [f|]; [|eauto].
  destruct Hin as [->|Hin].
  - rewrite Hnil.
    destruct (assignNested_nil (fieldFlag fl fType) (Type_ fType)
                (fieldKey fType) f Hh) as [msg ->]. eauto.
  - destruct (assignNested (fieldFlag fl g) (Type_ g) (fieldKey g) f
                (index m (fieldKey g)));
      [eapply IH; eauto | eauto].
Qed.

(** C1 (the code departs from it): in a nested struct a key that is missing
    from the inner object, or is there with null, makes the mapping panic for
    every field type without a [SelfParse] hook; [handleStruct] has no test
    for [nil] where the loop of [Get] has one. *)
Theorem nested_missing_key_panics fl key fields s m fType :
  In fType fields -> hookless (Type_ fType) ->
  index m (fieldKey fType) = Nil ->
  exists msg s',
    handleStruct fl key (TStruct None fields) s (AMap m) = Panic msg s'.
Proof.
  intros Hin Hh Hnil. destruct s as [| | | | | | |vals|]; try (simpl; eauto; fail).
  destruct (structFields_missing_key fl m fields 0%nat vals fType Hin Hh Hnil)
    as (msg & vals' & Hp).
  exists msg, (VStruct vals'). rewrite handleStruct_generic. now rewrite Hp.
Qed.

End MapperFacts.

Lemma nested_missing_key_panics_witness :
  exists msg s',
    handleStruct (H := samplePlatform) flagRW "Thumbnail"
      AttachmentThumbnail (zero AttachmentThumbnail)
      (AMap {[ "URL" := AString "https://example.org/a.png" ]})
    = Panic msg s'.
Proof.
  apply (nested_missing_key_panics (H := samplePlatform) flagRW
           "Thumbnail" _ _ _ (mkField "Width" None TInt)).
  - simpl. right. left. reflexivity.
  - exact I.
  - reflexivity.
Defined.

(** The failing input of C1 through the loop of [Get]: the record has the
    column and the inner object has [URL] alone; the mapping panics at
    [Width], with [Name] and [URL] already written. *)
Example get_partial_thumbnail_panics :
  getRecord (H := samplePlatform) ThumbRecord (zero ThumbRecord)
    {[ "Name" := AString "Tom";
       "Thumbnail" := AMap {[ "URL" := AString "https://example.org/a.png" ]} ]}
  = Panic "PARSE ERROR: could not parse column 'Width' as int"
      (VStruct [VString "Tom";
                VStruct [VString "https://example.org/a.png"; VInt 0; VInt 0]]).
Proof. vm_compute. reflexivity. Qed.

(** The same column missing at the top level is skipped. *)
Example get_missing_column_skipped :
  getRecord (H := samplePlatform) ThumbRecord (zero ThumbRecord)
    {[ "Name" := AString "Tom" ]}
  = Done (VStruct [VString "Tom"; zero AttachmentThumbnail]).
Proof. vm_compute. reflexivity. Qed.

Section TopLevelFacts.
Context `{Platform}.

(** What [handleStruct] misses, the loop of [Get] has: fields whose keys are
    missing or null are passed over and keep what they hold. *)
Lemma getFields_skips_missing Fields fs : forall i vals,
  (forall fType, In fType fs -> index Fields (fieldKey fType) = Nil) ->
  (i + length fs <= length vals)%nat ->
  getFields Fields fs i vals = Done vals.
Proof.
  induction fs as [|g fs IH]; intros i vals Hk Hlen; [reflexivity|].
  simpl in *. destruct (vals !! i) as [f|] eqn:Hi.
  - rewrite (Hk g) by (left; reflexivity).
    apply IH; [intros fType Hin; apply Hk; now right | lia].
  - apply lookup_ge_None in Hi. lia.
Qed.

End TopLevelFacts.

Section LoopFacts.
Context `{Platform}.
Variable assign : flag -> gotype -> string -> value -> any -> outcome value.
Variable fl : flag.
Variable m : gmap string any.
Variable all : list (StructField gotype).

(** The loop from field [i] on, where [fs] is what is left of [all]. *)
Lemma structFields_from fs : forall i vals,
  drop i all = fs ->
  let o := structFields assign fl m fs i vals in
  length (stateOf o) = length vals
  /\ (forall k, (k < i)%nat -> stateOf o !! k = vals !! k)
  /\ (forall k, (length all <= k)%nat -> stateOf o !! k = vals !! k)
  /\ match o with
     | Done vals' =>
         forall k fType, (i <= k)%nat -> all !! k = Some fType ->
           mapped assign fl m vals vals' k fType
     | Panic msg vals' =>
         exists j fType,
           (i <= j)%nat /\ all !! j = Some fType
           /\ failed assign fl m vals vals' j fType msg
           /\ (forall k, (j < k)%nat -> vals' !! k = vals !! k)
           /\ (forall k fType', (i <= k < j)%nat -> all !! k = Some fType' ->
                 mapped assign fl m vals vals' k fType')
     end.
Proof.
  induction fs as [|g fs IH]; intros i vals Hdrop.
  - simpl. repeat split; try reflexivity.
    intros k fType Hk Hl. apply lookup_lt_Some in Hl.
    apply (f_equal length) in Hdrop. rewrite length_drop in Hdrop.
    simpl in Hdrop. lia.
  - assert (Hg : all !! i = Some g).
    { rewrite <- (Nat.add_0_r i), <- lookup_drop, Hdrop. reflexivity. }
    assert (Hfs : drop (S i) all = fs).
    { rewrite (drop_S _ _ _ Hg) in Hdrop. now injection Hdrop. }
    pose proof (lookup_lt_Some _ _ _ Hg) as Hlen.
    simpl. destruct (vals !! i) as [f|] eqn:Hf.
    + pose proof (lookup_lt_Some _ _ _ Hf) as Hi.
      destruct (assign (fieldFlag fl g) (Type_ g) (fieldKey g) f
                  (index m (fieldKey g))) as [x|msg x] eqn:Ha.
      * specialize (IH (S i) (<[i:=x]> vals) Hfs). cbv zeta in IH.
        destruct IH as (Hl & Hlow & Hhigh & Hrest).
        rewrite length_insert in Hl.
        assert (Hi' : stateOf (structFields assign fl m fs (S i) (<[i:=x]> vals)) !! i
                      = Some x).
        { rewrite Hlow by lia. now apply list_lookup_insert_eq. }
        split; [exact Hl|]. split.
        { intros k Hk. rewrite Hlow by lia. apply list_lookup_insert_ne. lia. }
        split.
        { intros k Hk. rewrite Hhigh by lia. apply list_lookup_insert_ne. lia. }
        destruct (structFields assign fl m fs (S i) (<[i:=x]> vals))
          as [vals'|msg vals']; simpl in Hi'.
        -- intros k fType Hk Hl'. destruct (decide (k = i)) as [->|Hne].
           ++ rewrite Hg in Hl'. injection Hl' as <-. exists f, x. auto.
           ++ destruct (Hrest k fType ltac:(lia) Hl') as (f' & x' & Hf' & Ha' & Hx').
              rewrite list_lookup_insert_ne in Hf' by lia. exists f', x'. auto.
        -- destruct Hrest as (j & fType & Hj & Hl' & Hfail & Hafter & Hbefore).
           exists j, fType. split; [lia|]. split; [exact Hl'|]. split.
           { destruct Hfail as [[Hn Hn']|(f' & x' & Hf' & Ha' & Hx')].
             - left. rewrite list_lookup_insert_ne in Hn by lia. auto.
             - right. rewrite list_lookup_insert_ne in Hf' by lia.
               exists f', x'. auto. }
           split.
           { intros k Hk. rewrite Hafter by lia. apply list_lookup_insert_ne. lia. }
           intros k fType' Hk Hl''. destruct (decide (k = i)) as [->|Hne].
           ++ rewrite Hg in Hl''. injection Hl'' as <-. exists f, x. auto.
           ++ destruct (Hbefore k fType' ltac:(lia) Hl'')
                as (f' & x' & Hf' & Ha' & Hx').
              rewrite list_lookup_insert_ne in Hf' by lia. exists f', x'. auto.
      * simpl. rewrite length_insert. split; [reflexivity|]. split.
        { intros k Hk. apply list_lookup_insert_ne. lia. }
        split.
        { intros k Hk. apply list_lookup_insert_ne. lia. }
        exists i, g. split; [lia|]. split; [exact Hg|]. split.
        { right. exists f, x. split; [exact Hf|]. split; [exact Ha|].
          now apply list_lookup_insert_eq. }
        split.
        { intros k Hk. apply list_lookup_insert_ne. lia. }
        intros k fType' Hk. lia.
    + simpl. repeat split; try reflexivity.
      exists i, g. split; [lia|]. split; [exact Hg|]. split.
      { left. auto. }
      split; [reflexivity|]. intros k fType' Hk. lia.
Qed.

Lemma structFields_result vals :
  fieldsResult assign fl m all vals (structFields assign fl m all 0 vals).
Proof.
  destruct (structFields_from all 0%nat vals eq_refl) as (Hl & _ & Hhigh & Hrest).
  split; [exact Hl|]. split; [exact Hhigh|].
  destruct (structFields assign fl m all 0 vals) as [vals'|msg vals'].
  - intros k fType. apply Hrest. lia.
  - destruct Hrest as (j & fType & _ & Hj & Hfail & Hafter & Hbefore).
    exists j, fType. repeat split; try assumption.
    intros k fType' Hk. apply Hbefore. lia.
Qed.

End LoopFacts.

Section TopLoopFacts.
Context `{Platform}.

(** The loop of [Get] is the loop over the fields of a struct that can be
    set, through the [switch] behind the test for [nil]. *)
Lemma getFields_as_structFields Fields fs : forall i vals,
  getFields Fields fs i vals = structFields assignPresent flagRW Fields fs i vals.
Proof.
  induction fs as [|g fs IH]; intros i vals; [reflexivity|].
  simpl. destruct (vals !! i) as [f|] eqn:Hf; [|reflexivity].
  unfold assignPresent at 1.
  destruct (index Fields (fieldKey g)) eqn:Hv;
    try (destruct (assignTop _ _ _ _ _); [apply IH | reflexivity]).
  rewrite (list_insert_id _ _ _ Hf). apply IH.
Qed.

Lemma getRecord_fields selfParse fields vals Fields :
  getRecord (TStruct selfParse fields) (VStruct vals) Fields =
  wrapStruct (structFields assignPresent flagRW Fields fields 0 vals).
Proof.
  unfold getRecord, wrapStruct. now rewrite getFields_as_structFields.
Qed.

Lemma handleStruct_fields fl key fields vals m :
  handleStruct fl key (TStruct None fields) (VStruct vals) (AMap m) =
  wrapStruct (structFields assignNested fl m fields 0 vals).
Proof. apply handleStruct_generic. Qed.

Lemma wrapStruct_done o vals' :
  wrapStruct o = Done (VStruct vals') -> o = Done vals'.
Proof. destruct o; simpl; congruence. Qed.

Lemma wrapStruct_panic o msg vals' :
  wrapStruct o = Panic msg (VStruct vals') -> o = Panic msg vals'.
Proof. destruct o; simpl; congruence. Qed.

End TopLoopFacts.

Section SliceFacts.
Context `{Platform}.
Variables (key : string) (elem : gotype).

(** What the loop of [handleSlice] does to one entry: element [i] of the
    fresh slice starts at the zero value and can be set. *)
#[local] Abbreviation entry v := (assignNested flagRW elem key (zero elem) v).

Lemma sliceElems_done s : forall dst,
  sliceElems assignNested key elem s = Done dst <->
  Forall2 (fun v x => entry v = Done x) s dst.
Proof.
  induction s as [|v s IH]; intros dst; simpl.
  - split; [intros [= <-]; constructor | intros Hf; inversion Hf; reflexivity].
  - destruct (entry v) as [x|msg x] eqn:Hv.
    + destruct (sliceElems assignNested key elem s) as [xs|msg xs] eqn:Hs.
      * split.
        -- intros [= <-]. constructor; [exact Hv | now apply IH].
        -- intros Hf. inversion Hf as [|? y ? ys Hy Hys]; subst.
           apply IH in Hys. rewrite Hv in Hy. congruence.
      * split; [discriminate|].
        intros Hf. inversion Hf as [|? y ? ys Hy Hys]; subst.
        apply IH in Hys. discriminate.
    + split; [discriminate|].
      intros Hf. inversion Hf as [|? y ? ys Hy Hys]; subst.
      rewrite Hv in Hy. discriminate.
Qed.

Lemma sliceElems_panic s : forall msg dst,
  sliceElems assignNested key elem s = Panic msg dst ->
  exists i v x, s !! i = Some v /\ entry v = Panic msg x /\
    forall j w, (j < i)%nat -> s !! j = Some w -> exists y, entry w = Done y.
Proof.
  induction s as [|v s IH]; intros msg dst; simpl; [discriminate|].
  destruct (entry v) as [x|msg' x] eqn:Hv.
  - destruct (sliceElems assignNested key elem s) as [xs|msg' xs] eqn:Hs;
      [discriminate|].
    intros [= <- <-]. destruct (IH _ _ eq_refl) as (i & w & y & Hi & Hw & Hlt).
    exists (S i), w, y. repeat split; try assumption.
    intros [|j] u Hj Hu; simpl in Hu.
    + injection Hu as <-. eauto.
    + apply (Hlt j u); [lia | assumption].
  - intros [= <- <-]. exists 0%nat, v, x. repeat split; try assumption.
    intros j w Hj. lia.
Qed.

(** C5 (amended): on a JSON array of N entries [handleSlice] ends normally
    exactly when the slot can be set and every entry maps, each from the zero
    value of the element type and through the [switch] on the element kind,
    and then the slot holds a slice of those N results in order.  When an
    entry fails, the first failure is the panic; when every entry maps and
    the slot was reached through an unexported field, [f.Set(dst)] panics in
    [reflect]; the slot is untouched either way.  On anything but an array
    the panic is the parse error that names the column as a slice. *)
Theorem handleSlice_maps_each_entry (fl : flag) (f : value) :
  (forall s r,
     handleSlice fl key (TSlice elem) f (ASlice s) = Done r <->
     ro fl = false /\
     exists dst, r = VSlice dst /\ length dst = length s /\
       Forall2 (fun v x => assignNested flagRW elem key (zero elem) v = Done x)
         s dst)
  /\ (forall s msg f',
        handleSlice fl key (TSlice elem) f (ASlice s) = Panic msg f' ->
        f' = f /\
        ((exists i v x, s !! i = Some v /\
            assignNested flagRW elem key (zero elem) v = Panic msg x /\
            forall j w, (j < i)%nat -> s !! j = Some w ->
              exists y, assignNested flagRW elem key (zero elem) w = Done y)
         \/ (ro fl = true /\ msg = unexportedPanic "Set" /\
             exists dst, length dst = length s /\
               Forall2
                 (fun v x => assignNested flagRW elem key (zero elem) v = Done x)
                 s dst)))
  /\ (forall s dst,
        ro fl = true ->
        Forall2 (fun v x => assignNested flagRW elem key (zero elem) v = Done x)
          s dst ->
        handleSlice fl key (TSlice elem) f (ASlice s)
        = Panic (unexportedPanic "Set") f)
  /\ (forall v, (forall s, v <> ASlice s) ->
        handleSlice fl key (TSlice elem) f v = Panic (parseError key "slice") f).
Proof.
  split; [|split; [|split]].
  - intros s r. rewrite handleSlice_array.
    destruct (sliceElems assignNested key elem s) as [dst|msg dst] eqn:Hs.
    + pose proof (proj1 (sliceElems_done s dst) Hs) as HF.
      destruct (ro fl); split.
      * discriminate.
      * intros [? _]. discriminate.
      * intros [= <-]. split; [reflexivity|]. exists dst.
        repeat split; try assumption.
        symmetry. eapply Forall2_length; eassumption.
      * intros (_ & dst' & -> & _ & Hf). apply sliceElems_done in Hf.
        congruence.
    + split; [discriminate|].
      intros (_ & dst' & -> & _ & Hf). apply sliceElems_done in Hf.
      congruence.
  - intros s msg f'. rewrite handleSlice_array.
    destruct (sliceElems assignNested key elem s) as [dst|msg' dst] eqn:Hs.
    + destruct (ro fl); [|discriminate].
      intros [= <- <-]. split; [reflexivity|]. right.
      apply sliceElems_done in Hs. repeat split. exists dst. split; [|exact Hs].
      symmetry. eapply Forall2_length; eassumption.
    + intros [= <- <-]. split; [reflexivity|]. left.
      apply sliceElems_panic in Hs. exact Hs.
  - intros s dst Hro Hf. rewrite handleSlice_array.
    apply sliceElems_done in Hf. now rewrite Hf, Hro.
  - intros v Hv. destruct v; try reflexivity. now destruct (Hv s).
Qed.

End SliceFacts.

Lemma handleSlice_maps_each_entry_witness :
  handleSlice (H := samplePlatform) flagRW "Sizes" (TSlice AttachmentThumbnail)
    VNilSlice
    (ASlice [AMap {[ "URL" := AString "a"; "Width" := AFloat64 (S754_finite false 5 (-1));
                     "Height" := AFloat64 (S754_zero false) ]};
             AMap {[ "URL" := AString "b"; "Width" := AFloat64 (S754_finite true 3 0);
                     "Height" := AFloat64 (S754_finite false 1 4) ]}])
  = Done (VSlice [VStruct [VString "a"; VInt 2; VInt 0];
                  VStruct [VString "b"; VInt (-3); VInt 16]])
  /\ handleSlice (H := samplePlatform) flagRW "Sizes" (TSlice AttachmentThumbnail)
       VNilSlice (AString "none")
     = Panic "PARSE ERROR: could not parse column 'Sizes' as slice" VNilSlice.
Proof.
  destruct (handleSlice_maps_each_entry (H := samplePlatform) "Sizes"
              AttachmentThumbnail flagRW VNilSlice) as (Hdone & _ & _ & Hother).
  split.
  - apply Hdone. split; [reflexivity|].
    eexists. split; [reflexivity|]. split; [reflexivity|].
    repeat constructor.
  - apply Hother. intros s. discriminate.
Defined.

(** C5 as written fails for a slice field that is not exported: every entry
    of the array maps, and the mapping panics at [f.Set(dst)] with the field
    still a nil slice. *)
Lemma unexported_slice_not_stored :
  getRecord (H := samplePlatform)
    (TStruct None [mkStructField "sizes" None (TSlice TString) "main" false])
    (VStruct [VNilSlice]) {[ "sizes" := ASlice [AString "a"; AString "b"] ]}
  = Panic "reflect: reflect.Value.Set using value obtained using unexported field"
      (VStruct [VNilSlice])
  /\ Forall2
       (fun v x =>
          assignNested (H := samplePlatform) flagRW TString "sizes"
            (zero TString) v = Done x)
       [AString "a"; AString "b"] [VString "a"; VString "b"].
Proof. split; [vm_compute; reflexivity | repeat constructor]. Qed.

Section HookFacts.
Context `{Platform}.


Lemma handleStruct_hook fl (maybeParse : Hook) fields key s v :
  handleStruct fl key (TStruct (Some maybeParse) fields) s v =
  if ro fl then Panic (unexportedPanic "Call") s
  else hookOutcome (maybeParse v s).
Proof. reflexivity. Qed.



End HookFacts.



(** The hook of a column that is missing from the record is not run: a hook
    that panics on every value goes unnoticed. *)
Example absent_hooked_column_skipped :
  getRecord (H := samplePlatform)
    (TStruct None
       [mkField "Total" None
          (TStruct (Some (fun _ s => HookPanic "no formula" s)) [])])
    (VStruct [VStruct []]) ∅
  = Done (VStruct [VStruct []]).
Proof. vm_compute. reflexivity. Qed.

(** The integer part is the float's value with the fraction cut off: of the
    value [m * 2 ^ e], negated when [s] is set, it keeps the sign and the
    whole multiples of one. *)
Lemma float64_trunc_toward_zero s m e z :
  float64_trunc (S754_finite s m e) = Some z ->
  (if s then z <= 0 else 0 <= z)
  /\ (0 <= e -> Z.abs z = Z.pos m * 2 ^ e)
  /\ (e < 0 -> Z.abs z * 2 ^ (- e) <= Z.pos m < (Z.abs z + 1) * 2 ^ (- e)).
Proof.
  simpl. intros [= <-].
  destruct (Z.leb_spec 0 e) as [He|He].
  - assert (0 < 2 ^ e) by (apply Z.pow_pos_nonneg; lia).
    assert (0 <= Z.pos m * 2 ^ e) by nia.
    destruct s; repeat split; intros; lia.
  - assert (Hp : 0 < 2 ^ (- e)) by (apply Z.pow_pos_nonneg; lia).
    assert (Hq : 0 <= Z.pos m / 2 ^ (- e)) by (apply Z.div_pos; lia).
    pose proof (Z.mul_div_le (Z.pos m) _ Hp) as Hlo.
    pose proof (Z.mul_succ_div_gt (Z.pos m) _ Hp) as Hhi.
    assert (Habs : forall b : bool,
      Z.abs (if b then - (Z.pos m / 2 ^ (- e)) else Z.pos m / 2 ^ (- e))
      = Z.pos m / 2 ^ (- e)) by (intros []; lia).
    split; [destruct s; lia|]. split; [lia|]. intros _.
    rewrite Habs. nia.
Qed.

(** An integer that fits the [int] of the platform fits [int64] and is what
    [int(x)] gives back. *)
Lemma in_int_fits sz z :
  in_int sz z = true -> in_int64 z = true /\ wrapInt sz z = z.
Proof.
  unfold in_int, in_int64, wrapInt. intros Hin.
  apply andb_prop in Hin. destruct Hin as [Hlo Hhi].
  apply Z.leb_le in Hlo. apply Z.ltb_lt in Hhi.
  destruct sz; cbn [bitsOf] in *.
  - change (2 ^ (32 - 1)) with 2147483648 in *.
    change (2 ^ 32) with 4294967296.
    change (2 ^ 63) with 9223372036854775808.
    split.
    + apply andb_true_intro. split; [apply Z.leb_le | apply Z.ltb_lt]; lia.
    + rewrite Z.mod_small by lia. lia.
  - change (2 ^ (64 - 1)) with 9223372036854775808 in *.
    change (2 ^ 64) with 18446744073709551616.
    change (2 ^ 63) with 9223372036854775808.
    split.
    + apply andb_true_intro. split; [apply Z.leb_le | apply Z.ltb_lt]; lia.
    + rewrite Z.mod_small by lia. lia.
Qed.

Section IntFacts.
Context `{Platform}.

(** C6 (amended): in an [int] slot that can be set, [handleInt] stores the
    [int64] conversion of a JSON number, brought to the size of [int]; that
    is the number's integer part, the fraction cut off toward zero, whenever
    the integer part is an [int].  In a slot reached through an unexported
    field the number is not stored and [SetInt] panics in [reflect].  On any
    value but a number the panic is the parse error that names the column as
    an int, and the slot is left alone.  Both [switch]es send an [int] slot
    to [handleInt]. *)
Theorem handleInt_converts fl key (f : value) :
  (forall n, ro fl = false ->
     handleInt fl key f (AFloat64 n)
     = Done (VInt (wrapInt int_size (int64_of_float64 n))))
  /\ (forall n, ro fl = true ->
        handleInt fl key f (AFloat64 n) = Panic (unexportedPanic "SetInt") f)
  /\ (forall n z, float64_trunc n = Some z -> in_int int_size z = true ->
        wrapInt int_size (int64_of_float64 n) = z)
  /\ (forall s m e z, float64_trunc (S754_finite s m e) = Some z ->
        (if s then z <= 0 else 0 <= z)
        /\ (0 <= e -> Z.abs z = Z.pos m * 2 ^ e)
        /\ (e < 0 ->
              Z.abs z * 2 ^ (- e) <= Z.pos m < (Z.abs z + 1) * 2 ^ (- e)))
  /\ (forall v, (forall n, v <> AFloat64 n) ->
        handleInt fl key f v =
        Panic ("PARSE ERROR: could not parse column '" +:+ key +:+ "' as int") f)
  /\ (forall v, assignNested fl TInt key f v = handleInt fl key f v)
  /\ (forall v, assignTop fl TInt key f v = handleInt fl key f v).
Proof.
  split; [|split; [|split; [|split; [|split; [|split; reflexivity]]]]].
  - intros n Hro. unfold handleInt. now rewrite Hro.
  - intros n Hro. unfold handleInt. now rewrite Hro.
  - intros n z Hz Hin. destruct (in_int_fits _ _ Hin) as [H64 Hw].
    unfold int64_of_float64. now rewrite Hz, H64.
  - intros s m e z. apply float64_trunc_toward_zero.
  - intros v Hv. destruct v; try reflexivity. now destruct (Hv n).
Qed.

End IntFacts.

Lemma handleInt_converts_witness :
  handleInt (H := samplePlatform) flagRW "Rating" (VInt 0)
    (AFloat64 (S754_finite true 7 (-1))) = Done (VInt (-3))
  /\ handleInt (H := samplePlatform) flagRW "Rating" (VInt 0) (AString "3")
     = Panic "PARSE ERROR: could not parse column 'Rating' as int" (VInt 0).
Proof.
  destruct (handleInt_converts (H := samplePlatform) flagRW "Rating" (VInt 0))
    as (Hnum & _ & Htrunc & _ & Hother & _).
  split.
  - rewrite (Hnum _ eq_refl).
    now rewrite (Htrunc (S754_finite true 7 (-1)) (-3) eq_refl eq_refl).
  - apply Hother. intros n. discriminate.
Defined.

(** C6 as written fails for an [int] field that is not exported: the value
    is a number, and the mapping panics at [f.SetInt] with the field as it
    was. *)
Lemma unexported_int_not_assigned :
  getRecord (H := samplePlatform)
    (TStruct None [mkStructField "count" None TInt "main" false])
    (VStruct [VInt 0]) {[ "count" := AFloat64 (S754_finite false 3 0) ]}
  = Panic "reflect: reflect.Value.SetInt using value obtained using unexported field"
      (VStruct [VInt 0]).
Proof. vm_compute. reflexivity. Qed.

Section KeyFacts.
Context `{Platform}.

Lemma structFields_keys assign fl (m1 m2 : gmap string any) fs :
  (forall fType, In fType fs ->
     index m1 (fieldKey fType) = index m2 (fieldKey fType)) ->
  forall i vals,
    structFields assign fl m1 fs i vals = structFields assign fl m2 fs i vals.
Proof.
  induction fs as [|g fs IH]; intros Hk i vals; [reflexivity|].
  simpl. destruct (vals !! i) as [f|]; [|reflexivity].
  rewrite (Hk g) by (left; reflexivity).
  destruct (assign (fieldFlag fl g) (Type_ g) (fieldKey g) f
              (index m2 (fieldKey g)));
    [|reflexivity].
  apply IH. intros fType Hin. apply Hk. now right.
Qed.

Lemma getFields_keys (m1 m2 : gmap string any) fs :
  (forall fType, In fType fs ->
     index m1 (fieldKey fType) = index m2 (fieldKey fType)) ->
  forall i vals, getFields m1 fs i vals = getFields m2 fs i vals.
Proof.
  intros Hk i vals. rewrite !getFields_as_structFields.
  now apply structFields_keys.
Qed.

(** C7: in the loop of [Get] and in the loop of [handleStruct], which every
    nested struct goes through, each field is set from the value that the
    fields map has at the field's [from] tag when it has one and at its name
    otherwise.  After a mapping that ends normally field [k] holds what the
    [switch] made of the value at that key; a mapping that panics does so at
    one field, on the value at that field's key; and two maps that agree at
    these keys give the same mapping, whatever else they hold. *)
Theorem fields_read_by_resolved_key fields :
  (forall selfParse vals m vals',
     getRecord (TStruct selfParse fields) (VStruct vals) m = Done (VStruct vals') ->
     forall k fType key,
       fields !! k = Some fType ->
       key = match from fType with Some alias => alias | None => Name fType end ->
       exists f x,
         vals !! k = Some f
         /\ assignPresent (fieldFlag flagRW fType) (Type_ fType) key f (index m key)
            = Done x
         /\ vals' !! k = Some x)
  /\ (forall fl name vals m vals',
        handleStruct fl name (TStruct None fields) (VStruct vals) (AMap m)
        = Done (VStruct vals') ->
        forall k fType key,
          fields !! k = Some fType ->
          key = match from fType with Some alias => alias | None => Name fType end ->
          exists f x,
            vals !! k = Some f
            /\ assignNested (fieldFlag fl fType) (Type_ fType) key f (index m key)
               = Done x
            /\ vals' !! k = Some x)
  /\ (forall selfParse vals m msg vals',
        length vals = length fields ->
        getRecord (TStruct selfParse fields) (VStruct vals) m
        = Panic msg (VStruct vals') ->
        exists j fType key f x,
          fields !! j = Some fType
          /\ key = match from fType with Some alias => alias | None => Name fType end
          /\ vals !! j = Some f
          /\ assignPresent (fieldFlag flagRW fType) (Type_ fType) key f (index m key)
             = Panic msg x
          /\ vals' !! j = Some x)
  /\ (forall fl name vals m msg vals',
        length vals = length fields ->
        handleStruct fl name (TStruct None fields) (VStruct vals) (AMap m)
        = Panic msg (VStruct vals') ->
        exists j fType key f x,
          fields !! j = Some fType
          /\ key = match from fType with Some alias => alias | None => Name fType end
          /\ vals !! j = Some f
          /\ assignNested (fieldFlag fl fType) (Type_ fType) key f (index m key)
             = Panic msg x
          /\ vals' !! j = Some x)
  /\ (forall m1 m2 : gmap string any,
        (forall fType, In fType fields ->
           index m1 (match from fType with Some alias => alias | None => Name fType end)
           = index m2 (match from fType with Some alias => alias | None => Name fType end)) ->
        (forall selfParse s,
           getRecord (TStruct selfParse fields) s m1 =
           getRecord (TStruct selfParse fields) s m2)
        /\ (forall fl name s,
              handleStruct fl name (TStruct None fields) s (AMap m1) =
              handleStruct fl name (TStruct None fields) s (AMap m2))).
Proof.
  split; [|split; [|split; [|split]]].
  - intros selfParse vals m vals' Hget k fType key Hk ->.
    rewrite getRecord_fields in Hget. apply wrapStruct_done in Hget.
    pose proof (structFields_result assignPresent flagRW m fields vals)
      as (_ & _ & Hres).
    rewrite Hget in Hres. exact (Hres k fType Hk).
  - intros fl name vals m vals' Hmap k fType key Hk ->.
    rewrite handleStruct_fields in Hmap. apply wrapStruct_done in Hmap.
    pose proof (structFields_result assignNested fl m fields vals)
      as (_ & _ & Hres).
    rewrite Hmap in Hres. exact (Hres k fType Hk).
  - intros selfParse vals m msg vals' Hlen Hget.
    rewrite getRecord_fields in Hget. apply wrapStruct_panic in Hget.
    pose proof (structFields_result assignPresent flagRW m fields vals)
      as (_ & _ & Hres).
    rewrite Hget in Hres.
    destruct Hres as (j & fType & Hj & Hfail & _).
    destruct Hfail as [[Hn _]|(f & x & Hf & Ha & Hx)].
    + apply lookup_lt_Some in Hj. apply lookup_ge_None in Hn. lia.
    + exists j, fType, (fieldKey fType), f, x. auto.
  - intros fl name vals m msg vals' Hlen Hmap.
    rewrite handleStruct_fields in Hmap. apply wrapStruct_panic in Hmap.
    pose proof (structFields_result assignNested fl m fields vals)
      as (_ & _ & Hres).
    rewrite Hmap in Hres.
    destruct Hres as (j & fType & Hj & Hfail & _).
    destruct Hfail as [[Hn _]|(f & x & Hf & Ha & Hx)].
    + apply lookup_lt_Some in Hj. apply lookup_ge_None in Hn. lia.
    + exists j, fType, (fieldKey fType), f, x. auto.
  - intros m1 m2 Hk. split.
    + intros selfParse []; try reflexivity. unfold getRecord.
      now rewrite (getFields_keys m1 m2 fields Hk).
    + intros fl name []; try reflexivity. rewrite !handleStruct_generic.
      now rewrite (structFields_keys assignNested fl m1 m2 fields Hk).
Qed.

End KeyFacts.

(** [Thumb] is read at its alias [Thumbnail]: what the field ends up with is
    what the [switch] made of the value under [Thumbnail], and an entry under
    the field's own name changes nothing. *)
Lemma fields_read_by_resolved_key_witness :
  (exists f x,
     [VString ""; zero AttachmentThumbnail] !! 1%nat = Some f
     /\ assignPresent (H := samplePlatform)
          (fieldFlag flagRW (mkField "Thumb" (Some "Thumbnail") AttachmentThumbnail))
          AttachmentThumbnail "Thumbnail" f
          (index {[ "Name" := AString "Tom";
                    "Thumb" := AString "ignored";
                    "Thumbnail" :=
                      AMap {[ "URL" := AString "a";
                              "Width" := AFloat64 (S754_finite false 5 0);
                              "Height" := AFloat64 (S754_zero false) ]} ]}
             "Thumbnail") = Done x
     /\ [VString "Tom"; VStruct [VString "a"; VInt 5; VInt 0]] !! 1%nat = Some x)
  /\ getRecord (H := samplePlatform) ThumbRecord (zero ThumbRecord)
       {[ "Name" := AString "Tom"; "Thumb" := AString "ignored" ]}
     = getRecord (H := samplePlatform) ThumbRecord (zero ThumbRecord)
         {[ "Name" := AString "Tom" ]}.
Proof.
  destruct (fields_read_by_resolved_key (H := samplePlatform)
              [mkField "Name" None TString;
               mkField "Thumb" (Some "Thumbnail") AttachmentThumbnail])
    as (Hget & _ & _ & _ & Hsame).
  split.
  - apply (Hget None [VString ""; zero AttachmentThumbnail] _
             [VString "Tom"; VStruct [VString "a"; VInt 5; VInt 0]]);
      reflexivity.
  - apply Hsame. intros fType [<-|[<-|[]]]; reflexivity.
Defined.

Section SetupFacts.
Context `{Platform}.

Lemma eqb_empty (s : string) : String.eqb s "" = true <-> s = "".
Proof. apply String.eqb_eq. Qed.

Lemma eqb_nonempty (s : string) : s <> "" -> String.eqb s "" = false.
Proof. intros Hs. now apply String.eqb_neq. Qed.

Lemma checkSetup_unset c :
  APIKey c = "" \/ BaseID c = "" ->
  checkSetup c = Panic "airtable: Client missing BaseID" c
  \/ checkSetup c = Panic "airtable: Client missing APIKey" c.
Proof.
  intros Hc. unfold checkSetup.
  destruct (String.eqb (BaseID c) "") eqn:Hb; [now left|].
  destruct Hc as [Hk|Hb']; [|rewrite Hb' in Hb; discriminate].
  rewrite Hk. now right.
Qed.

(** C4: with an empty API key or base identifier a request ends in the setup
    check, before anything else: the current revision panics with the
    message of the missing field, the earlier one returns an
    [ErrClientSetupError], which is neither an [ErrClientRequestError] nor a
    transport error; in both the client is as it was and so is the world, so
    no token was taken and no request was handed to an HTTP client. *)
Theorem request_without_setup_fails_fast :
  (forall method endpoint options c w,
     APIKey c = "" \/ BaseID c = "" ->
     exists msg,
       RequestBytes method endpoint options c w = (Panicked msg, c, w)
       /\ (msg = "airtable: Client missing BaseID"
           \/ msg = "airtable: Client missing APIKey"))
  /\ (forall httpclient resource options c w,
        Legacy.APIKey c = "" \/ Legacy.BaseID c = "" ->
        exists msg,
          Legacy.RequestBytes httpclient resource options c w
          = ((None, Some (ErrClientSetupError msg)), c, w)
          /\ (forall m, ErrClientSetupError msg <> ErrClientRequestError m)
          /\ (forall m, ErrClientSetupError msg <> TransportError m)).
Proof.
  split.
  - intros method endpoint options c w Hc. unfold RequestBytes.
    destruct (checkSetup_unset c Hc) as [-> | ->]; eauto.
  - intros httpclient resource options c w Hc.
    unfold Legacy.RequestBytes, Legacy.checkSetup.
    destruct (String.eqb (Legacy.BaseID c) "") eqn:Hb.
    + eexists. split; [reflexivity|]. split; discriminate.
    + destruct Hc as [Hk|Hb']; [|rewrite Hb' in Hb; discriminate].
      rewrite Hk. simpl. eexists. split; [reflexivity|]. split; discriminate.
Qed.

(** [checkSetup] on a client that passes its three tests. *)
Lemma checkSetup_done c :
  BaseID c <> "" -> APIKey c <> "" -> HTTPClient c <> None ->
  checkSetup c =
  Done {| APIKey := APIKey c; BaseID := BaseID c;
          Version := if String.eqb (Version c) "" then defaultVersion else Version c;
          RootURL := if String.eqb (RootURL c) "" then defaultRootURL else RootURL c;
          HTTPClient := HTTPClient c |}.
Proof.
  intros Hb Hk Hh. unfold checkSetup.
  rewrite (eqb_nonempty _ Hb), (eqb_nonempty _ Hk).
  destruct c as [k b v u [h|]]; [|contradiction]. simpl.
  destruct (String.eqb v "") eqn:Hv, (String.eqb u "") eqn:Hu;
    unfold set_Version, set_RootURL; simpl; rewrite ?Hu; reflexivity.
Qed.

Lemma checkSetup_idempotent c c' : checkSetup c = Done c' -> checkSetup c' = Done c'.
Proof.
  unfold checkSetup. destruct c as [k b v u h]; cbn.
  destruct (String.eqb b "") eqn:Hb; [discriminate|].
  destruct (String.eqb k "") eqn:Hk; [discriminate|].
  destruct h as [h|]; [|discriminate].
  destruct (String.eqb v "") eqn:Hv; destruct (String.eqb u "") eqn:Hu;
    cbn; rewrite ?Hu; cbn; intros [= <-];
    repeat (cbn; rewrite ?Hb, ?Hk, ?Hv, ?Hu); reflexivity.
Qed.

Lemma checkSetup_client_of_request method endpoint options c w :
  (RequestBytes method endpoint options c w).1.2 = stateOf (checkSetup c).
Proof.
  unfold RequestBytes. destruct (checkSetup c) as [c'|msg c']; [|reflexivity].
  simpl. destruct (url_error _); [reflexivity|].
  destruct (HTTPClient c') as [Do|]; [|reflexivity].
  destruct (Do _) as [e|e|bytes]; try reflexivity.
  destruct (checkErrorResponse bytes); reflexivity.
Qed.

Lemma legacy_checkSetup_done c :
  Legacy.BaseID c <> "" -> Legacy.APIKey c <> "" ->
  Legacy.checkSetup c =
  (None,
   {| Legacy.APIKey := Legacy.APIKey c; Legacy.BaseID := Legacy.BaseID c;
      Legacy.Version :=
        if String.eqb (Legacy.Version c) "" then defaultVersion else Legacy.Version c;
      Legacy.RootURL :=
        if String.eqb (Legacy.RootURL c) "" then defaultRootURL else Legacy.RootURL c |}).
Proof.
  intros Hb Hk. unfold Legacy.checkSetup.
  rewrite (eqb_nonempty _ Hb), (eqb_nonempty _ Hk).
  destruct c as [k b v u]; cbn.
  destruct (String.eqb v "") eqn:Hv; destruct (String.eqb u "") eqn:Hu;
    cbn; rewrite ?Hu; reflexivity.
Qed.

Lemma legacy_checkSetup_idempotent c c' :
  Legacy.checkSetup c = (None, c') -> Legacy.checkSetup c' = (None, c').
Proof.
  unfold Legacy.checkSetup. destruct c as [k b v u]; cbn.
  destruct (String.eqb b "") eqn:Hb; [discriminate|].
  destruct (String.eqb k "") eqn:Hk; [discriminate|].
  destruct (String.eqb v "") eqn:Hv; destruct (String.eqb u "") eqn:Hu;
    cbn; rewrite ?Hu; cbn; intros [= <-];
    repeat (cbn; rewrite ?Hb, ?Hk, ?Hv, ?Hu); reflexivity.
Qed.

(** [checkSetup] on a client that fails one of its three tests. *)
Lemma checkSetup_fails c :
  BaseID c = "" \/ APIKey c = "" \/ HTTPClient c = None ->
  exists msg, checkSetup c = Panic msg c.
Proof.
  intros Hc. unfold checkSetup.
  destruct (String.eqb (BaseID c) "") eqn:Hb; [eauto|].
  destruct (String.eqb (APIKey c) "") eqn:Hk; [eauto|].
  destruct (HTTPClient c) eqn:Hh; [|eauto].
  destruct Hc as [Hc|[Hc|Hc]]; [| |discriminate].
  - rewrite Hc in Hb. discriminate.
  - rewrite Hc in Hk. discriminate.
Qed.

Lemma legacy_checkSetup_fails c :
  Legacy.BaseID c = "" \/ Legacy.APIKey c = "" ->
  exists err, Legacy.checkSetup c = (Some err, c).
Proof.
  intros Hc. unfold Legacy.checkSetup.
  destruct (String.eqb (Legacy.BaseID c) "") eqn:Hb; [eauto|].
  destruct (String.eqb (Legacy.APIKey c) "") eqn:Hk; [eauto|].
  destruct Hc as [Hc|Hc].
  - rewrite Hc in Hb. discriminate.
  - rewrite Hc in Hk. discriminate.
Qed.

(** C9 (amended): a client whose base identifier and API key are set, and in
    the current revision whose HTTP client is too, leaves the setup check
    with an empty version and an empty root URL replaced by "v0" and
    "https://api.airtable.com" and every other field as it was; that is the
    client a request leaves behind, and a further setup check changes
    nothing more.  A client that fails one of these tests leaves the setup
    check, and a request, exactly as it was: the current revision panics and
    the earlier one returns the setup error before any default is written.
    No client has its API key or base identifier changed. *)
Theorem checkSetup_fills_defaults :
  (forall c, BaseID c <> "" -> APIKey c <> "" -> HTTPClient c <> None ->
     exists c',
       checkSetup c = Done c'
       /\ Version c' = (if String.eqb (Version c) "" then "v0" else Version c)
       /\ RootURL c' = (if String.eqb (RootURL c) "" then "https://api.airtable.com"
                        else RootURL c)
       /\ APIKey c' = APIKey c /\ BaseID c' = BaseID c
       /\ HTTPClient c' = HTTPClient c
       /\ checkSetup c' = Done c'
       /\ (forall method endpoint options w,
             (RequestBytes method endpoint options c w).1.2 = c'))
  /\ (forall c, Legacy.BaseID c <> "" -> Legacy.APIKey c <> "" ->
        exists c',
          Legacy.checkSetup c = (None, c')
          /\ Legacy.Version c' =
               (if String.eqb (Legacy.Version c) "" then "v0" else Legacy.Version c)
          /\ Legacy.RootURL c' =
               (if String.eqb (Legacy.RootURL c) "" then "https://api.airtable.com"
                else Legacy.RootURL c)
          /\ Legacy.APIKey c' = Legacy.APIKey c
          /\ Legacy.BaseID c' = Legacy.BaseID c
          /\ Legacy.checkSetup c' = (None, c')
          /\ (forall httpclient resource options w,
                (Legacy.RequestBytes httpclient resource options c w).1.2 = c'))
  /\ (forall c, BaseID c = "" \/ APIKey c = "" \/ HTTPClient c = None ->
        (exists msg, checkSetup c = Panic msg c)
        /\ (forall method endpoint options w,
              (RequestBytes method endpoint options c w).1.2 = c))
  /\ (forall c, Legacy.BaseID c = "" \/ Legacy.APIKey c = "" ->
        (exists err, Legacy.checkSetup c = (Some err, c))
        /\ (forall httpclient resource options w,
              (Legacy.RequestBytes httpclient resource options c w).1.2 = c))
  /\ (forall c, APIKey (stateOf (checkSetup c)) = APIKey c
                /\ BaseID (stateOf (checkSetup c)) = BaseID c)
  /\ (forall c, Legacy.APIKey (Legacy.checkSetup c).2 = Legacy.APIKey c
                /\ Legacy.BaseID (Legacy.checkSetup c).2 = Legacy.BaseID c).
Proof.
  split; [|split; [|split; [|split; [|split]]]];
    [| |intros c Hc; destruct (checkSetup_fails c Hc) as [msg Hp];
        split; [eauto|];
        intros; rewrite checkSetup_client_of_request, Hp; reflexivity
     |intros c Hc; destruct (legacy_checkSetup_fails c Hc) as [err Hp];
        split; [eauto|];
        intros; unfold Legacy.RequestBytes; rewrite Hp; reflexivity
     | |].
  - intros c Hb Hk Hh. pose proof (checkSetup_done c Hb Hk Hh) as Hd.
    eexists. split; [exact Hd|]. repeat split; try reflexivity.
    + eapply checkSetup_idempotent, Hd.
    + intros. rewrite checkSetup_client_of_request, Hd. reflexivity.
  - intros c Hb Hk. pose proof (legacy_checkSetup_done c Hb Hk) as Hd.
    eexists. split; [exact Hd|]. repeat split; try reflexivity.
    + eapply legacy_checkSetup_idempotent, Hd.
    + intros. unfold Legacy.RequestBytes. rewrite Hd. simpl.
      destruct (url_error _); [reflexivity|].
      destruct (httpclient _) as [e|e|bytes]; try reflexivity.
      destruct (checkErrorResponse bytes); reflexivity.
  - intros c. unfold checkSetup.
    destruct (String.eqb (BaseID c) ""); [now split|].
    destruct (String.eqb (APIKey c) ""); [now split|].
    destruct (HTTPClient c); [|now split].
    destruct c as [k b v u h]; simpl.
    destruct (String.eqb v ""); unfold set_Version; simpl;
      destruct (String.eqb u ""); now split.
  - intros c. unfold Legacy.checkSetup.
    destruct (String.eqb (Legacy.BaseID c) ""); [now split|].
    destruct (String.eqb (Legacy.APIKey c) ""); [now split|].
    destruct c as [k b v u]; cbn.
    destruct (String.eqb v ""); cbn; destruct (String.eqb u ""); now split.
Qed.

End SetupFacts.

Lemma request_without_setup_fails_fast_witness :
  RequestBytes (H := samplePlatform) "GET" "Main" None unsetClient sampleWorld
  = (Panicked "airtable: Client missing BaseID", unsetClient, sampleWorld)
  /\ Legacy.RequestBytes (H := samplePlatform) sampleTransport "Main" None
       unsetLegacyClient sampleWorld
     = ((None, Some (ErrClientSetupError "Client missing APIKey")),
        unsetLegacyClient, sampleWorld).
Proof.
  destruct (request_without_setup_fails_fast (H := samplePlatform)) as [Hcur Hold].
  split.
  - destruct (Hcur "GET" "Main" None unsetClient sampleWorld) as (msg & Hr & _);
      [right; reflexivity|].
    rewrite Hr. vm_compute in Hr. injection Hr as <-. reflexivity.
  - destruct (Hold sampleTransport "Main" None unsetLegacyClient sampleWorld)
      as (msg & Hr & _); [left; reflexivity|].
    rewrite Hr. vm_compute in Hr. injection Hr as <-. reflexivity.
Defined.

Lemma checkSetup_fills_defaults_witness :
  (exists c',
     checkSetup sampleClient = Done c'
     /\ Version c' = "v0" /\ RootURL c' = "https://api.airtable.com"
     /\ (RequestBytes (H := samplePlatform) "GET" "Main/rec1" None sampleClient
           sampleWorld).1.2 = c')
  /\ (exists msg, checkSetup noTransportClient = Panic msg noTransportClient)
  /\ (RequestBytes (H := samplePlatform) "GET" "Main/rec1" None noTransportClient
        sampleWorld).1.2 = noTransportClient.
Proof.
  destruct (checkSetup_fills_defaults (H := samplePlatform))
    as (Hcur & _ & Hfail & _).
  split.
  - destruct (Hcur sampleClient) as (c' & Hd & Hv & Hu & _ & _ & _ & _ & Hreq);
      [discriminate | discriminate | discriminate |].
    exists c'. repeat split; [exact Hd | exact Hv | exact Hu | apply Hreq].
  - destruct (Hfail noTransportClient) as [Hp Hreq];
      [right; right; reflexivity|].
    split; [exact Hp | apply Hreq].
Defined.

(** C9 as written fails on a client without a base identifier: its version
    and root URL are empty before the request and empty after it. *)
Lemma checkSetup_defaults_need_setup :
  Version unsetClient = ""
  /\ Version (stateOf (checkSetup unsetClient)) = ""
  /\ RootURL (stateOf (checkSetup unsetClient)) = ""
  /\ Version (RequestBytes (H := samplePlatform) "GET" "Main" None unsetClient
                sampleWorld).1.2 = ""
  /\ Legacy.Version (Legacy.checkSetup unsetLegacyClient).2 = "".
Proof. repeat split. Qed.

Section DecodeFacts.
Context `{Platform}.

Lemma find_some_In {A} (p : A -> bool) l x : List.find p l = Some x -> In x l.
Proof. intros Hf. now apply List.find_some in Hf. Qed.

Lemma findField_In names key n : findField names key = Some n -> In n names.
Proof.
  unfold findField. destruct (List.find (String.eqb key) names) eqn:He.
  - intros [= <-]. eapply find_some_In, He.
  - apply find_some_In.
Qed.

Lemma membersFor_cons names n kv ms :
  membersFor names n (kv :: ms) =
  if bool_decide (findField names kv.1 = Some n)
  then kv.2 :: membersFor names n ms
  else membersFor names n ms.
Proof. unfold membersFor. simpl. now destruct (bool_decide _). Qed.

Lemma decodeErrorMember_type r k d :
  findField ["type"; "message"] k = Some "type" -> stringOrNull d ->
  decodeErrorMember (r, None) (k, d) =
  ({| Error_Type := lastString [d] (Error_Type r);
      Error_Message := Error_Message r |}, None).
Proof.
  intros Hf Hd. unfold decodeErrorMember. cbn [fst snd]. rewrite Hf.
  destruct d; try contradiction; reflexivity.
Qed.

Lemma decodeErrorMember_message r k d :
  findField ["type"; "message"] k = Some "message" -> stringOrNull d ->
  decodeErrorMember (r, None) (k, d) =
  ({| Error_Type := Error_Type r;
      Error_Message := lastString [d] (Error_Message r) |}, None).
Proof.
  intros Hf Hd. unfold decodeErrorMember. cbn [fst snd]. rewrite Hf.
  destruct d; try contradiction; reflexivity.
Qed.

Lemma decodeErrorMember_other r k d :
  findField ["type"; "message"] k = None ->
  decodeErrorMember (r, None) (k, d) = (r, None).
Proof. intros Hf. unfold decodeErrorMember. cbn [fst snd]. now rewrite Hf. Qed.

(** The members that go to a string field, each a string or [null], leave
    the last string there; members for no field are passed over. *)
Lemma decodeErrorMembers es : forall r,
  Forall stringOrNull (membersFor ["type"; "message"] "type" es) ->
  Forall stringOrNull (membersFor ["type"; "message"] "message" es) ->
  fold_left decodeErrorMember es (r, None) =
  ({| Error_Type :=
        lastString (membersFor ["type"; "message"] "type" es) (Error_Type r);
      Error_Message :=
        lastString (membersFor ["type"; "message"] "message" es) (Error_Message r) |},
   None).
Proof.
  induction es as [|[k d] es IH]; intros r Ht Hm.
  - now destruct r.
  - rewrite membersFor_cons in Ht, Hm. rewrite !membersFor_cons.
    cbn [fold_left fst snd] in *.
    destruct (findField ["type"; "message"] k) as [n|] eqn:Hf.
    + pose proof (findField_In _ _ _ Hf) as [<-|[<-|[]]].
      * rewrite bool_decide_eq_true_2 in Ht by reflexivity.
        rewrite bool_decide_eq_false_2 in Hm by discriminate.
        rewrite bool_decide_eq_true_2 by reflexivity.
        rewrite bool_decide_eq_false_2 by discriminate.
        inversion Ht as [|? ? Hd Ht']; subst.
        rewrite (decodeErrorMember_type r k d Hf Hd).
        now rewrite IH by assumption.
      * rewrite bool_decide_eq_false_2 in Ht by discriminate.
        rewrite bool_decide_eq_true_2 in Hm by reflexivity.
        rewrite bool_decide_eq_false_2 by discriminate.
        rewrite bool_decide_eq_true_2 by reflexivity.
        inversion Hm as [|? ? Hd Hm']; subst.
        rewrite (decodeErrorMember_message r k d Hf Hd).
        now rewrite IH by assumption.
    + rewrite bool_decide_eq_false_2 in Ht by discriminate.
      rewrite bool_decide_eq_false_2 in Hm by discriminate.
      rewrite !bool_decide_eq_false_2 by discriminate.
      rewrite (decodeErrorMember_other r k d Hf). now apply IH.
Qed.

(** With one [error] member the outer loop comes to decoding that member. *)
Lemma decodeErrorResponse_sole ms x : forall acc,
  membersFor ["error"] "error" ms = [x] ->
  fold_left
    (fun acc kv =>
       match findField ["error"] kv.1 with
       | Some _ => decodeError kv.2 acc
       | None => acc
       end) ms acc
  = decodeError x acc.
Proof.
  assert (Hnone : forall ms acc, membersFor ["error"] "error" ms = [] ->
    fold_left
      (fun acc kv =>
         match findField ["error"] kv.1 with
         | Some _ => decodeError kv.2 acc
         | None => acc
         end) ms acc = acc).
  { clear. induction ms as [|[k d] ms IH]; intros acc Hm; [reflexivity|].
    rewrite membersFor_cons in Hm. simpl in *.
    destruct (findField ["error"] k) as [n|] eqn:Hf.
    - pose proof (findField_In _ _ _ Hf) as [<-|[]].
      rewrite bool_decide_eq_true_2 in Hm by reflexivity. discriminate.
    - rewrite bool_decide_eq_false_2 in Hm by discriminate. now apply IH. }
  induction ms as [|[k d] ms IH]; intros acc Hm; [discriminate|].
  rewrite membersFor_cons in Hm. simpl in *.
  destruct (findField ["error"] k) as [n|] eqn:Hf.
  - pose proof (findField_In _ _ _ Hf) as [<-|[]].
    rewrite bool_decide_eq_true_2 in Hm by reflexivity.
    injection Hm as -> Hm. now apply Hnone.
  - rewrite bool_decide_eq_false_2 in Hm by discriminate. now apply IH.
Qed.

Lemma decodeErrorResponse_envelope d type message :
  errorEnvelope d type message ->
  decodeErrorResponse d =
  ({| Error_Type := type; Error_Message := message |}, None).
Proof.
  intros (ms & es & -> & He & Ht & Hm). unfold decodeErrorResponse.
  rewrite (decodeErrorResponse_sole ms (JObject es) _ He). unfold decodeError.
  rewrite decodeErrorMembers; rewrite ?Ht, ?Hm; try reflexivity;
    repeat constructor.
Qed.

Lemma checkErrorResponse_envelope b d type message :
  json_parse b = Some d -> errorEnvelope d type message -> type <> "" ->
  checkErrorResponse b = Some (ErrClientRequestError message).
Proof.
  intros Hp He Hty. unfold checkErrorResponse, Unmarshal_errorResponse.
  rewrite Hp, (decodeErrorResponse_envelope _ _ _ He). simpl.
  now rewrite (proj2 (String.eqb_neq _ _) Hty).
Qed.

(** A document that is an array, a string, a number or a boolean. *)
Lemma checkErrorResponse_not_object b d :
  json_parse b = Some d ->
  match d with JObject _ | JNull => False | _ => True end ->
  checkErrorResponse b =
  Some (UnmarshalTypeError (jsonKind d) "airtable.errorResponse").
Proof.
  intros Hp Hd. unfold checkErrorResponse, Unmarshal_errorResponse.
  rewrite Hp. destruct d; try contradiction; reflexivity.
Qed.

(** [RequestBytes] once the setup check, the URL and the round trip went
    through. *)
Lemma RequestBytes_body method endpoint options c c' w Do b :
  checkSetup c = Done c' ->
  url_error (URL (newRequest c' endpoint options)) = None ->
  HTTPClient c' = Some Do ->
  Do (newRequest c' endpoint options) = Body b ->
  (RequestBytes method endpoint options c w).1.1 =
  Return (Some b, checkErrorResponse b).
Proof.
  intros Hs Hu Hh Hd. unfold RequestBytes. rewrite Hs. cbv zeta.
  rewrite Hu, Hh, Hd. now destruct (checkErrorResponse b).
Qed.

Lemma fold_left_saved {A} (f : A * option error -> string * json -> A * option error)
  (ms : list (string * json)) :
  (forall acc kv, typeErrorOrNone acc.2 -> typeErrorOrNone (f acc kv).2) ->
  forall acc, typeErrorOrNone acc.2 -> typeErrorOrNone (fold_left f ms acc).2.
Proof.
  intros Hf. induction ms as [|kv ms IH]; intros acc Ha; [exact Ha|].
  simpl. apply IH, Hf, Ha.
Qed.

Lemma saveError_saved saved v t :
  typeErrorOrNone saved -> typeErrorOrNone (saveError saved (UnmarshalTypeError v t)).
Proof. now destruct saved. Qed.

Lemma decodeString_saved d cur saved :
  typeErrorOrNone saved -> typeErrorOrNone (decodeString d cur saved).2.
Proof. destruct d; simpl; auto using saveError_saved. Qed.

Lemma decodeErrorMember_saved acc kv :
  typeErrorOrNone acc.2 -> typeErrorOrNone (decodeErrorMember acc kv).2.
Proof.
  destruct acc as [r saved]. unfold decodeErrorMember. intros Hs.
  destruct (findField _ _) as [n|]; [|exact Hs].
  destruct (String.eqb n "type").
  - pose proof (decodeString_saved kv.2 (Error_Type r) saved Hs) as Hd.
    now destruct (decodeString _ _ _).
  - pose proof (decodeString_saved kv.2 (Error_Message r) saved Hs) as Hd.
    now destruct (decodeString _ _ _).
Qed.

Lemma decodeError_saved d acc :
  typeErrorOrNone acc.2 -> typeErrorOrNone (decodeError d acc).2.
Proof.
  intros Ha. destruct d; simpl; auto using saveError_saved.
  apply fold_left_saved; [apply decodeErrorMember_saved | exact Ha].
Qed.

Lemma decodeErrorResponse_saved d : typeErrorOrNone (decodeErrorResponse d).2.
Proof.
  destruct d; simpl; auto.
  apply fold_left_saved; [|exact I].
  intros acc kv Ha. destruct (findField _ _); [|exact Ha].
  now apply decodeError_saved.
Qed.

Lemma membersFor_app names n a b :
  membersFor names n (a ++ b)%list
  = (membersFor names n a ++ membersFor names n b)%list.
Proof. unfold membersFor. now rewrite List.filter_app, map_app. Qed.

Lemma lastString_app a b cur :
  lastString (a ++ b)%list cur = lastString b (lastString a cur).
Proof. apply fold_left_app. Qed.

Lemma errorMembers_cons k d ms :
  errorMembers ((k, d) :: ms) =
  match findField ["error"] k with
  | Some _ => (membersOf d ++ errorMembers ms)%list
  | None => errorMembers ms
  end.
Proof.
  unfold errorMembers. rewrite membersFor_cons. cbn [fst snd].
  destruct (findField ["error"] k) as [n|] eqn:Hf.
  - pose proof (findField_In _ _ _ Hf) as [<-|[]].
    now rewrite bool_decide_eq_true_2 by reflexivity.
  - now rewrite bool_decide_eq_false_2 by discriminate.
Qed.

Lemma errorFits_cons k d ms :
  errorFits ((k, d) :: ms) <->
  match findField ["error"] k with
  | Some _ =>
      objectOrNull d
      /\ Forall stringOrNull (membersFor ["type"; "message"] "type" (membersOf d))
      /\ Forall stringOrNull (membersFor ["type"; "message"] "message" (membersOf d))
      /\ errorFits ms
  | None => errorFits ms
  end.
Proof.
  unfold errorFits, errorTypes, errorMessages.
  rewrite errorMembers_cons, membersFor_cons. cbn [fst snd].
  destruct (findField ["error"] k) as [n|] eqn:Hf.
  - pose proof (findField_In _ _ _ Hf) as [<-|[]].
    rewrite bool_decide_eq_true_2 by reflexivity.
    rewrite !membersFor_app, !Forall_app, Forall_cons. tauto.
  - rewrite bool_decide_eq_false_2 by discriminate. tauto.
Qed.

(** A string field reports nothing only for a string or [null]. *)
Lemma decodeString_none d cur saved s :
  decodeString d cur saved = (s, None) -> saved = None /\ stringOrNull d.
Proof.
  destruct d; simpl; intros [= _ Hs]; try (now destruct saved); now split.
Qed.

Lemma decodeErrorMembers_none es : forall r saved r',
  fold_left decodeErrorMember es (r, saved) = (r', None) ->
  saved = None
  /\ Forall stringOrNull (membersFor ["type"; "message"] "type" es)
  /\ Forall stringOrNull (membersFor ["type"; "message"] "message" es).
Proof.
  induction es as [|[k d] es IH]; intros r saved r' Hfold.
  - simpl in Hfold. injection Hfold as _ ->. repeat split; constructor.
  - cbn [fold_left] in Hfold.
    destruct (decodeErrorMember (r, saved) (k, d)) as [r1 s1] eqn:Hstep.
    apply IH in Hfold. destruct Hfold as (-> & Ht & Hm).
    rewrite !membersFor_cons. cbn [fst snd].
    unfold decodeErrorMember in Hstep. cbn [fst snd] in Hstep.
    destruct (findField ["type"; "message"] k) as [n|] eqn:Hf.
    + pose proof (findField_In _ _ _ Hf) as [<-|[<-|[]]].
      * change (String.eqb "type" "type") with true in Hstep. cbv iota in Hstep.
        destruct (decodeString d (Error_Type r) saved) as [str sv] eqn:Hd.
        injection Hstep as _ ->. apply decodeString_none in Hd.
        destruct Hd as [-> Hd].
        rewrite bool_decide_eq_true_2 by reflexivity.
        rewrite bool_decide_eq_false_2 by discriminate.
        repeat split; [constructor|]; assumption.
      * change (String.eqb "message" "type") with false in Hstep.
        cbv iota in Hstep.
        destruct (decodeString d (Error_Message r) saved) as [str sv] eqn:Hd.
        injection Hstep as _ ->. apply decodeString_none in Hd.
        destruct Hd as [-> Hd].
        rewrite bool_decide_eq_false_2 by discriminate.
        rewrite bool_decide_eq_true_2 by reflexivity.
        repeat split; [|constructor]; assumption.
    + injection Hstep as _ ->.
      rewrite !bool_decide_eq_false_2 by discriminate. auto.
Qed.

Lemma decodeError_none d r saved r' :
  decodeError d (r, saved) = (r', None) ->
  saved = None /\ objectOrNull d
  /\ Forall stringOrNull (membersFor ["type"; "message"] "type" (membersOf d))
  /\ Forall stringOrNull (membersFor ["type"; "message"] "message" (membersOf d)).
Proof.
  destruct d; cbn [decodeError fst snd membersOf objectOrNull];
    try (intros [= _ Hs]; now destruct saved).
  intros Hfold. apply decodeErrorMembers_none in Hfold.
  destruct Hfold as (-> & Ht & Hm). auto.
Qed.

(** The loop of the decoder over the members of the body. *)
#[local] Abbreviation probe :=
  (fun (acc : errorResponse * option error) (kv : string * json) =>
     match findField ["error"] kv.1 with
     | Some _ => decodeError kv.2 acc
     | None => acc
     end).

Lemma probe_none ms : forall r saved r',
  fold_left probe ms (r, saved) = (r', None) -> saved = None /\ errorFits ms.
Proof.
  induction ms as [|[k d] ms IH]; intros r saved r' Hfold.
  - simpl in Hfold. injection Hfold as _ ->. split; [reflexivity|].
    repeat split; constructor.
  - cbn [fold_left fst snd] in Hfold. rewrite errorFits_cons.
    destruct (findField ["error"] k) as [n|] eqn:Hf.
    + destruct (decodeError d (r, saved)) as [r1 s1] eqn:Hstep.
      apply IH in Hfold. destruct Hfold as [-> Hfits].
      apply decodeError_none in Hstep. tauto.
    + apply IH in Hfold. exact Hfold.
Qed.

Lemma probe_fits ms : forall r,
  errorFits ms ->
  fold_left probe ms (r, None) =
  ({| Error_Type := lastString (errorTypes ms) (Error_Type r);
      Error_Message := lastString (errorMessages ms) (Error_Message r) |}, None).
Proof.
  induction ms as [|[k d] ms IH]; intros r Hfits.
  - now destruct r.
  - cbn [fold_left fst snd]. unfold errorTypes, errorMessages.
    rewrite errorMembers_cons. apply errorFits_cons in Hfits.
    destruct (findField ["error"] k) as [n|] eqn:Hf.
    + destruct Hfits as (Hd & Ht & Hm & Hfits).
      rewrite !membersFor_app, !lastString_app.
      destruct d; try contradiction; cbn [decodeError membersOf] in *.
      * rewrite IH by assumption. reflexivity.
      * rewrite decodeErrorMembers by assumption.
        rewrite IH by assumption. reflexivity.
    + now apply IH.
Qed.

Lemma decodeErrorResponse_fits ms :
  errorFits ms ->
  decodeErrorResponse (JObject ms) =
  ({| Error_Type := lastString (errorTypes ms) "";
      Error_Message := lastString (errorMessages ms) "" |}, None).
Proof. intros Hfits. unfold decodeErrorResponse. now rewrite probe_fits. Qed.

Lemma decodeErrorResponse_unfit ms :
  ~ errorFits ms ->
  exists reqerr value target,
    decodeErrorResponse (JObject ms)
    = (reqerr, Some (UnmarshalTypeError value target)).
Proof.
  intros Hunfit. pose proof (decodeErrorResponse_saved (JObject ms)) as Hs.
  destruct (decodeErrorResponse (JObject ms)) as [reqerr [e|]] eqn:Hd.
  - destruct e; try contradiction. eauto.
  - unfold decodeErrorResponse in Hd. apply probe_none in Hd.
    destruct Hd as [_ Hfits]. contradiction.
Qed.

(** C3 (amended): for a body that is a JSON object, [RequestBytes] returns
    the bytes of the body in every case, and with them: when every value that
    goes to a field of [errorResponse] fits it and the type that is left is
    not empty, the [ErrClientRequestError] with the message that is left,
    which is empty when the envelope has none; when they fit and the type is
    empty, no error; and when one does not fit, as a message that is a
    number, the [UnmarshalTypeError] of the decoder.  An envelope with one
    string type and one string message is the first case. *)
Theorem error_envelope_gives_request_error
  method endpoint options c c' w Do b ms :
  checkSetup c = Done c' ->
  url_error (URL (newRequest c' endpoint options)) = None ->
  HTTPClient c' = Some Do ->
  Do (newRequest c' endpoint options) = Body b ->
  json_parse b = Some (JObject ms) ->
  (errorFits ms -> lastString (errorTypes ms) "" <> "" ->
     (RequestBytes method endpoint options c w).1.1 =
     Return (Some b,
             Some (ErrClientRequestError (lastString (errorMessages ms) ""))))
  /\ (errorFits ms -> lastString (errorTypes ms) "" = "" ->
        (RequestBytes method endpoint options c w).1.1 = Return (Some b, None))
  /\ (~ errorFits ms ->
        exists value target,
          (RequestBytes method endpoint options c w).1.1 =
          Return (Some b, Some (UnmarshalTypeError value target)))
  /\ (forall type message,
        errorEnvelope (JObject ms) type message -> type <> "" ->
        (RequestBytes method endpoint options c w).1.1 =
        Return (Some b, Some (ErrClientRequestError message))).
Proof.
  intros Hs Hu Hh Hd Hp.
  rewrite (RequestBytes_body _ _ _ _ _ _ _ _ Hs Hu Hh Hd).
  unfold checkErrorResponse, Unmarshal_errorResponse. rewrite Hp.
  split; [|split; [|split]].
  - intros Hfits Hty. rewrite (decodeErrorResponse_fits _ Hfits).
    cbn [Error_Type Error_Message].
    now rewrite (proj2 (String.eqb_neq _ _) Hty).
  - intros Hfits Hty. rewrite (decodeErrorResponse_fits _ Hfits).
    cbn [Error_Type Error_Message]. now rewrite Hty.
  - intros Hunfit.
    destruct (decodeErrorResponse_unfit _ Hunfit) as (reqerr & v & t & ->).
    eauto.
  - intros type message He Hty.
    rewrite (decodeErrorResponse_envelope _ _ _ He).
    cbn [Error_Type Error_Message].
    now rewrite (proj2 (String.eqb_neq _ _) Hty).
Qed.

(** C10 (amended): when the body of the response is JSON for an array, a
    string, a number or a boolean, [RequestBytes] returns the bytes of the
    body together with the [UnmarshalTypeError] of the probe for an error
    envelope. *)
Theorem non_object_body_gives_unmarshal_error
  method endpoint options c c' w Do b d :
  checkSetup c = Done c' ->
  url_error (URL (newRequest c' endpoint options)) = None ->
  HTTPClient c' = Some Do ->
  Do (newRequest c' endpoint options) = Body b ->
  json_parse b = Some d ->
  match d with JObject _ | JNull => False | _ => True end ->
  (RequestBytes method endpoint options c w).1.1 =
  Return (Some b, Some (UnmarshalTypeError (jsonKind d) "airtable.errorResponse")).
Proof.
  intros Hs Hu Hh Hd Hp Hk.
  rewrite (RequestBytes_body _ _ _ _ _ _ _ _ Hs Hu Hh Hd).
  now rewrite (checkErrorResponse_not_object _ _ Hp Hk).
Qed.

End DecodeFacts.

(** The refused request of the test suite, and an envelope that has a type
    and no message. *)
Lemma error_envelope_gives_request_error_witness :
  (RequestBytes (H := samplePlatform) "GET" "Main"
     (Some {| Encode := "fields=bad" |}) sampleClient sampleWorld).1.1
  = Return (Some (list_byte_of_string errorBody),
            Some (ErrClientRequestError "bad formula"))
  /\ (RequestBytes (H := samplePlatform) "GET" "Main/rec0" None sampleClient
        sampleWorld).1.1
     = Return (Some (list_byte_of_string noMessageBody),
               Some (ErrClientRequestError "")).
Proof.
  split.
  - destruct (error_envelope_gives_request_error (H := samplePlatform)
                "GET" "Main" (Some {| Encode := "fields=bad" |}) sampleClient
                (stateOf (checkSetup sampleClient)) sampleWorld sampleTransport
                (list_byte_of_string errorBody)
                [("error", JObject [("type", JString "INVALID_FILTER");
                                    ("message", JString "bad formula")])]
                eq_refl eq_refl eq_refl eq_refl eq_refl) as (_ & _ & _ & Henv).
    apply (Henv "INVALID_FILTER" "bad formula"); [|discriminate].
    eexists _, _. repeat split; reflexivity.
  - destruct (error_envelope_gives_request_error (H := samplePlatform)
                "GET" "Main/rec0" None sampleClient
                (stateOf (checkSetup sampleClient)) sampleWorld sampleTransport
                (list_byte_of_string noMessageBody)
                [("error", JObject [("type", JString "NOT_FOUND")])]
                eq_refl eq_refl eq_refl eq_refl eq_refl) as (Hfit & _).
    apply Hfit; [|discriminate].
    repeat split; repeat constructor.
Defined.

(** C3 as written fails: the body is a JSON object with an error envelope
    whose type is not empty, and what [RequestBytes] returns with the bytes
    is an error of the decoder, since the message of the envelope is a
    number. *)
Lemma number_message_gives_decode_error :
  json_parse (Platform := samplePlatform) (list_byte_of_string numberMessageBody)
  = Some (JObject [("error", JObject [("type", JString "INVALID_FILTER");
                                      ("message", JNumber "5")])])
  /\ (RequestBytes (H := samplePlatform) "GET" "Main"
        (Some {| Encode := "fields=5" |}) sampleClient sampleWorld).1.1
     = Return (Some (list_byte_of_string numberMessageBody),
               Some (UnmarshalTypeError "number" "string")).
Proof. split; reflexivity. Qed.

Lemma non_object_body_gives_unmarshal_error_witness :
  (RequestBytes (H := samplePlatform) "GET" "List" None sampleClient
     sampleWorld).1.1
  = Return (Some (list_byte_of_string "[]"),
            Some (UnmarshalTypeError "array" "airtable.errorResponse")).
Proof.
  apply (non_object_body_gives_unmarshal_error (H := samplePlatform)
           "GET" "List" None sampleClient (stateOf (checkSetup sampleClient))
           sampleWorld sampleTransport (list_byte_of_string "[]") (JArray []));
    reflexivity || exact I.
Defined.

(** C10 as written fails on the body [null]: it is JSON and no object, the
    probe leaves [reqerr] empty and reports nothing, and [RequestBytes]
    returns the bytes with a nil error. *)
Lemma null_body_gives_no_error :
  json_parse (Platform := samplePlatform) (list_byte_of_string "null") = Some JNull
  /\ (RequestBytes (H := samplePlatform) "GET" "Null" None sampleClient
        sampleWorld).1.1
     = Return (Some (list_byte_of_string "null"), None).
Proof. split; reflexivity. Qed.

Section RecordFacts.
Context `{Platform}.

Lemma Get_frame r id options st a :
  a <> record r -> heap (Get r id options st).2 !! a = heap st !! a.
Proof.
  intros Ha. unfold Get.
  destruct (RequestBytes _ _ _ _ _) as [[res c] w].
  destruct res as [[bytes [err|]]|msg]; try reflexivity.
  destruct (Unmarshal_GetResponse _) as [resp [err|]]; try reflexivity.
  cbn [heap]. destruct (heap st !! record r) as [s|]; try reflexivity.
  destruct (getRecord _ _ _); cbn [snd heap];
    now rewrite lookup_insert_ne by congruence.
Qed.

(** The world has no say in what [RequestBytes] returns or leaves in the
    client, and the client has a say through its setup check only. *)
Lemma RequestBytes_setup method endpoint options c c' w w' :
  checkSetup c = checkSetup c' ->
  (RequestBytes method endpoint options c w).1 =
  (RequestBytes method endpoint options c' w').1.
Proof.
  intros Hc. unfold RequestBytes. rewrite <- Hc.
  destruct (checkSetup c) as [c1|msg c1]; [|reflexivity].
  cbv zeta. destruct (url_error _); [reflexivity|].
  destruct (HTTPClient c1) as [Do|]; [|reflexivity].
  destruct (Do _) as [e|e|bytes]; try reflexivity.
  destruct (checkErrorResponse bytes); reflexivity.
Qed.

Lemma RequestBytes_world method endpoint options c w w' :
  (RequestBytes method endpoint options c w).1 =
  (RequestBytes method endpoint options c w').1.
Proof. now apply RequestBytes_setup. Qed.

Lemma checkSetup_stateOf c : checkSetup (stateOf (checkSetup c)) = checkSetup c.
Proof.
  destruct (checkSetup c) as [c'|msg c'] eqn:Hc; cbn [stateOf].
  - now apply checkSetup_idempotent in Hc.
  - assert (Hsame : c' = c).
    { unfold checkSetup in Hc.
      destruct (String.eqb (BaseID c) ""); [now injection Hc|].
      destruct (String.eqb (APIKey c) ""); [now injection Hc|].
      destruct (HTTPClient c); [discriminate | now injection Hc]. }
    subst c'. exact Hc.
Qed.

Lemma Get_client r id options st :
  client (Get r id options st).2 = stateOf (checkSetup (client st)).
Proof.
  unfold Get.
  pose proof (checkSetup_client_of_request "GET" (path_join (name r) id) options
                (client st) (world st)) as Hc.
  destruct (RequestBytes _ _ _ _ _) as [[res c] w]. cbn [fst snd] in Hc.
  subst c.
  destruct res as [[bytes [err|]]|msg]; try reflexivity.
  destruct (Unmarshal_GetResponse _) as [resp [err|]]; try reflexivity.
  cbn [heap]. destruct (heap st !! record r) as [s|]; try reflexivity.
  destruct (getRecord _ _ _); reflexivity.
Qed.

Lemma Get_own_record r id options st st' :
  checkSetup (client st) = checkSetup (client st') ->
  heap st !! record r = heap st' !! record r ->
  heap (Get r id options st).2 !! record r
  = heap (Get r id options st').2 !! record r.
Proof.
  intros Hc Hr. unfold Get.
  pose proof (RequestBytes_setup "GET" (path_join (name r) id) options
                (client st) (client st') (world st) (world st') Hc) as Hw.
  destruct (RequestBytes _ _ _ (client st) (world st)) as [[res c] w].
  destruct (RequestBytes _ _ _ (client st') (world st')) as [[res' c'] w'].
  simpl in Hw. injection Hw as <- <-.
  destruct res as [[bytes [err|]]|msg]; try exact Hr.
  destruct (Unmarshal_GetResponse _) as [resp [err|]]; try exact Hr.
  cbn [heap]. rewrite <- Hr.
  destruct (heap st !! record r) as [s|] eqn:Hs.
  - destruct (getRecord _ _ _); cbn [snd heap]; now rewrite !lookup_insert_eq.
  - cbn [snd heap]. now rewrite Hs.
Qed.

(** A call on another record, before or after, changes nothing for the
    struct of this one. *)
Lemma Get_after_other r1 r2 id1 id2 options1 options2 st :
  record r1 <> record r2 ->
  heap (Get r2 id2 options2 (Get r1 id1 options1 st).2).2 !! record r2
  = heap (Get r2 id2 options2 st).2 !! record r2.
Proof.
  intros Hne. apply Get_own_record.
  - rewrite Get_client. apply checkSetup_stateOf.
  - apply Get_frame. congruence.
Qed.

Lemma Get_commute r1 r2 id1 id2 options1 options2 st :
  record r1 <> record r2 ->
  heap (Get r2 id2 options2 (Get r1 id1 options1 st).2).2
  = heap (Get r1 id1 options1 (Get r2 id2 options2 st).2).2.
Proof.
  intros Hne. apply map_eq. intros a.
  destruct (decide (a = record r1)) as [->|Ha1].
  - rewrite Get_frame by congruence.
    symmetry. apply Get_after_other. congruence.
  - destruct (decide (a = record r2)) as [->|Ha2].
    + rewrite (Get_frame r1) by congruence. now apply Get_after_other.
    + now rewrite !Get_frame by congruence.
Qed.

Lemma getFields_cons Fields fType fs i vals :
  getFields Fields (fType :: fs) i vals =
  match getField Fields fType i vals with
  | Done vals1 => getFields Fields fs (S i) vals1
  | Panic msg vals1 => Panic msg vals1
  end.
Proof.
  cbn [getFields]. unfold getField.
  destruct (vals !! i) as [f|]; [|reflexivity]. cbv zeta.
  destruct (index Fields (fieldKey fType)); try reflexivity;
    now destruct (assignTop _ _ _ _ _).
Qed.

(** What one pass of a call through the body of its loop does to the heap:
    nothing outside the struct of its record, and to that struct what the
    body of the loop does. *)
Lemma stepMapping_done g h g' h' :
  stepMapping g h = Done (g', h') ->
  target g' = target g /\ decoded g' = decoded g
  /\ (forall a, a <> target g -> h' !! a = h !! a)
  /\ (forall vals, h !! target g = Some (VStruct vals) ->
        exists vals1,
          h' !! target g = Some (VStruct vals1)
          /\ forall o,
               getFields (decoded g') (todo g') (position g') vals1 = o ->
               getFields (decoded g) (todo g) (position g) vals = o).
Proof.
  unfold stepMapping. destruct (todo g) as [|fType fs] eqn:Htodo.
  - intros [= <- <-]. repeat split; try reflexivity.
    intros vals Hv. exists vals. split; [exact Hv|]. now rewrite Htodo.
  - destruct (h !! target g) as [[| | | | | | |vals|]|] eqn:Hcell;
      try discriminate.
    destruct (getField (decoded g) fType (position g) vals) as [vals1|msg vals1]
      eqn:Hbody; [|discriminate].
    intros [= <- <-]. cbn [target decoded todo position].
    repeat split; try reflexivity.
    + intros a Ha. now rewrite lookup_insert_ne by congruence.
    + intros vals0 [= <-]. exists vals1. rewrite lookup_insert_eq.
      split; [reflexivity|]. intros o Ho.
      now rewrite getFields_cons, Hbody.
Qed.

Lemma stepMapping_frame g h a :
  a <> target g -> (stateOf (stepMapping g h)).2 !! a = h !! a.
Proof.
  intros Ha. unfold stepMapping. destruct (todo g) as [|fType fs]; [reflexivity|].
  destruct (h !! target g) as [[| | | | | | |vals|]|]; try reflexivity.
  destruct (getField _ _ _ _); cbn [stateOf snd];
    now rewrite lookup_insert_ne by congruence.
Qed.

Lemma interleave_frame schedule : forall g1 g2 h a,
  a <> target g1 -> a <> target g2 ->
  (stateOf (interleave schedule g1 g2 h)).2 !! a = h !! a.
Proof.
  induction schedule as [|[] schedule IH]; intros g1 g2 h a Ha1 Ha2;
    [reflexivity| |]; cbn [interleave].
  - pose proof (stepMapping_frame g1 h a Ha1) as Hstep.
    destruct (stepMapping g1 h) as [[g1' h']|msg [g1' h']] eqn:Hs;
      cbn [stateOf snd] in *; [|exact Hstep].
    apply stepMapping_done in Hs. destruct Hs as (Ht & _).
    rewrite IH by congruence. exact Hstep.
  - pose proof (stepMapping_frame g2 h a Ha2) as Hstep.
    destruct (stepMapping g2 h) as [[g2' h']|msg [g2' h']] eqn:Hs;
      cbn [stateOf snd] in *; [|exact Hstep].
    apply stepMapping_done in Hs. destruct Hs as (Ht & _).
    rewrite IH by congruence. exact Hstep.
Qed.

Lemma interleave_done schedule : forall g1 g2 h g1' g2' h',
  target g1 <> target g2 ->
  interleave schedule g1 g2 h = Done (g1', g2', h') ->
  todo g1' = [] -> todo g2' = [] ->
  (forall vals, h !! target g1 = Some (VStruct vals) ->
     exists vals',
       getFields (decoded g1) (todo g1) (position g1) vals = Done vals'
       /\ h' !! target g1 = Some (VStruct vals'))
  /\ (forall vals, h !! target g2 = Some (VStruct vals) ->
        exists vals',
          getFields (decoded g2) (todo g2) (position g2) vals = Done vals'
          /\ h' !! target g2 = Some (VStruct vals')).
Proof.
  induction schedule as [|[] schedule IH];
    intros g1 g2 h g1' g2' h' Hne Hrun Hend1 Hend2; cbn [interleave] in Hrun.
  - injection Hrun as <- <- <-. rewrite Hend1, Hend2.
    split; intros vals Hv; exists vals; auto.
  - destruct (stepMapping g1 h) as [[g1a ha]|msg [g1a ha]] eqn:Hs;
      [|discriminate].
    apply stepMapping_done in Hs. destruct Hs as (Ht & Hd & Hframe & Hown).
    destruct (IH g1a g2 ha g1' g2' h' ltac:(congruence) Hrun Hend1 Hend2)
      as [H1 H2].
    split.
    + intros vals Hv. destruct (Hown vals Hv) as (vals1 & Hv1 & Hloop).
      rewrite <- Ht in Hv1. destruct (H1 vals1 Hv1) as (vals' & Hg & Hv').
      exists vals'. split; [now apply Hloop|]. now rewrite <- Ht.
    + intros vals Hv. apply H2. now rewrite Hframe by congruence.
  - destruct (stepMapping g2 h) as [[g2a ha]|msg [g2a ha]] eqn:Hs;
      [|discriminate].
    apply stepMapping_done in Hs. destruct Hs as (Ht & Hd & Hframe & Hown).
    destruct (IH g1 g2a ha g1' g2' h' ltac:(congruence) Hrun Hend1 Hend2)
      as [H1 H2].
    split.
    + intros vals Hv. apply H1. now rewrite Hframe by congruence.
    + intros vals Hv. destruct (Hown vals Hv) as (vals1 & Hv1 & Hloop).
      rewrite <- Ht in Hv1. destruct (H2 vals1 Hv1) as (vals' & Hg & Hv').
      exists vals'. split; [now apply Hloop|]. now rewrite <- Ht.
Qed.

(** C8 (amended): the one struct a [Get] stores to is the struct the record
    of its [Resource] points to, and every other address of the heap holds
    after the call what it held before.  What the call leaves in its struct
    depends on the setup of the client and on that struct, not on the rest
    of the heap.  So for two resources whose records are at different
    addresses, each call leaves in its struct what it leaves there when it
    is the only call, and the two calls in either order leave the same
    heap.  The same holds with the two loops taking turns field by field:
    under every schedule that lets both loops get through, each struct ends
    as its own loop leaves it, and no other address is touched, panic or
    not. *)
Theorem Get_writes_its_record_only :
  (forall r id options st a,
     a <> record r -> heap (Get r id options st).2 !! a = heap st !! a)
  /\ (forall r id options st a,
        written st (Get r id options st).2 a -> a = record r)
  /\ (forall r id options st st',
        checkSetup (client st) = checkSetup (client st') ->
        heap st !! record r = heap st' !! record r ->
        heap (Get r id options st).2 !! record r
        = heap (Get r id options st').2 !! record r)
  /\ (forall r1 r2 id1 id2 options1 options2 st,
        record r1 <> record r2 ->
        let st12 := (Get r2 id2 options2 (Get r1 id1 options1 st).2).2 in
        let st21 := (Get r1 id1 options1 (Get r2 id2 options2 st).2).2 in
        heap st12 !! record r1 = heap (Get r1 id1 options1 st).2 !! record r1
        /\ heap st12 !! record r2 = heap (Get r2 id2 options2 st).2 !! record r2
        /\ heap st12 = heap st21)
  /\ (forall schedule g1 g2 h,
        target g1 <> target g2 ->
        (forall a, a <> target g1 -> a <> target g2 ->
           (stateOf (interleave schedule g1 g2 h)).2 !! a = h !! a)
        /\ (forall g1' g2' h',
              interleave schedule g1 g2 h = Done (g1', g2', h') ->
              todo g1' = [] -> todo g2' = [] ->
              (forall vals, h !! target g1 = Some (VStruct vals) ->
                 exists vals',
                   getFields (decoded g1) (todo g1) (position g1) vals
                   = Done vals'
                   /\ h' !! target g1 = Some (VStruct vals'))
              /\ (forall vals, h !! target g2 = Some (VStruct vals) ->
                    exists vals',
                      getFields (decoded g2) (todo g2) (position g2) vals
                      = Done vals'
                      /\ h' !! target g2 = Some (VStruct vals')))).
Proof.
  split; [|split; [|split; [|split]]].
  - intros r id options st a. apply Get_frame.
  - intros r id options st a Hw.
    destruct (decide (a = record r)) as [|Hne]; [assumption|].
    destruct Hw. symmetry. now apply Get_frame.
  - intros r id options st st'. apply Get_own_record.
  - intros r1 r2 id1 id2 options1 options2 st Hne. cbv zeta.
    split; [|split].
    + apply Get_frame. exact Hne.
    + now apply Get_after_other.
    + now apply Get_commute.
  - intros schedule g1 g2 h Hne. split.
    + intros a. apply interleave_frame.
    + intros g1' g2' h'. now apply interleave_done.
Qed.

End RecordFacts.

(** Two records, two resources: each call maps its own response into its own
    struct, in either order of the calls. *)
Lemma Get_writes_its_record_only_witness :
  let r1 := NewResource "Main" (NameRecord, 1%positive) in
  let r2 := NewResource "Main" (NameRecord, 2%positive) in
  let st12 :=
    (Get (H := samplePlatform) r2 "rec2" None
       (Get (H := samplePlatform) r1 "rec1" None twoRecordState).2).2 in
  let st21 :=
    (Get (H := samplePlatform) r1 "rec1" None
       (Get (H := samplePlatform) r2 "rec2" None twoRecordState).2).2 in
  heap st12 !! 1%positive = Some (VStruct [VString "Tom"])
  /\ heap st12 !! 2%positive = Some (VStruct [VString "Ann"])
  /\ heap st12 = heap st21.
Proof.
  destruct (Get_writes_its_record_only (H := samplePlatform))
    as (_ & _ & _ & Htwo & _).
  destruct (Htwo (NewResource "Main" (NameRecord, 1%positive))
              (NewResource "Main" (NameRecord, 2%positive))
              "rec1" "rec2" None None twoRecordState ltac:(discriminate))
    as (H1 & H2 & H12).
  cbv zeta. split; [|split].
  - etransitivity; [exact H1 | vm_compute; reflexivity].
  - etransitivity; [exact H2 | vm_compute; reflexivity].
  - exact H12.
Defined.

(** The two loops of the witness taking turns, the second one first. *)
Example two_loops_take_turns :
  interleave (H := samplePlatform) [false; true]
    {| target := 1; decoded := {[ "Name" := AString "Tom" ]};
       todo := [mkField "Name" None TString]; position := 0 |}
    {| target := 2; decoded := {[ "Name" := AString "Ann" ]};
       todo := [mkField "Name" None TString]; position := 0 |}
    (heap twoRecordState)
  = Done ({| target := 1; decoded := {[ "Name" := AString "Tom" ]};
             todo := []; position := 1 |},
          {| target := 2; decoded := {[ "Name" := AString "Ann" ]};
             todo := []; position := 1 |},
          {[ 1%positive := VStruct [VString "Tom"];
             2%positive := VStruct [VString "Ann"] ]}).
Proof. vm_compute. reflexivity. Qed.

(** C8 as written fails: two calls of [Get] through one resource, hence
    through one client, store to the same struct; the name the first call
    wrote is replaced by the second. *)
Lemma same_resource_same_storage :
  ~ (forall (r1 r2 : Resource) id1 id2 st a,
       let st1 := (Get (H := samplePlatform) r1 id1 None st).2 in
       let st2 := (Get (H := samplePlatform) r2 id2 None st1).2 in
       written st st1 a -> ~ written st1 st2 a).
Proof.
  intros Hclaim.
  apply (Hclaim (NewResource "Main" (NameRecord, 1%positive))
           (NewResource "Main" (NameRecord, 1%positive))
           "rec1" "rec2" sampleState 1%positive).
  - vm_compute. discriminate.
  - vm_compute. discriminate.
Qed.

Example same_resource_overwrites :
  let r := NewResource "Main" (NameRecord, 1%positive) in
  let st1 := (Get (H := samplePlatform) r "rec1" None sampleState).2 in
  let st2 := (Get (H := samplePlatform) r "rec2" None st1).2 in
  heap st1 !! 1%positive = Some (VStruct [VString "Tom"])
  /\ heap st2 !! 1%positive = Some (VStruct [VString "Ann"]).
Proof. split; vm_compute; reflexivity. Qed.

(** * Further properties of the request layer *)

Section RequestFacts.
Context `{Platform}.

(** The three ways the setup check can refuse a client, or its success. *)
Lemma checkSetup_cases c :
  (exists msg, checkSetup c = Panic msg c
     /\ (BaseID c = "" \/ APIKey c = "" \/ HTTPClient c = None))
  \/ (exists c' Do, checkSetup c = Done c'
        /\ BaseID c <> "" /\ APIKey c <> "" /\ HTTPClient c = Some Do
        /\ HTTPClient c' = Some Do).
Proof.
  destruct (decide (BaseID c = "")) as [Hb|Hb].
  { left. unfold checkSetup. rewrite Hb. simpl. eauto. }
  destruct (decide (APIKey c = "")) as [Hk|Hk].
  { left. unfold checkSetup. rewrite (eqb_nonempty _ Hb), Hk. simpl. eauto. }
  destruct (HTTPClient c) as [Do|] eqn:Hh.
  - right. eexists _, Do. rewrite checkSetup_done by congruence.
    repeat split; auto.
  - left. unfold checkSetup.
    rewrite (eqb_nonempty _ Hb), (eqb_nonempty _ Hk), Hh. eauto.
Qed.

(** [RequestBytes] panics exactly on a client that lacks its base
    identifier, its API key or its HTTP client; whatever the transport and
    the body do beyond that comes back as a returned error. *)
Theorem RequestBytes_panics_iff_unset method endpoint options c w :
  (exists msg, (RequestBytes method endpoint options c w).1.1 = Panicked msg)
  <-> BaseID c = "" \/ APIKey c = "" \/ HTTPClient c = None.
Proof.
  unfold RequestBytes.
  destruct (checkSetup_cases c)
    as [(msg & -> & Hc) | (c' & Do & -> & Hb & Hk & Hh & Hh')].
  - split; [intros _; exact Hc | intros _; eauto].
  - cbv zeta. rewrite Hh'. split.
    + intros [msg Hp]. destruct (url_error _); [discriminate|].
      destruct (Do _) as [e|e|bytes]; try discriminate.
      destruct (checkErrorResponse bytes); discriminate.
    + intros [Hb'|[Hk'|Hh'']]; congruence.
Qed.

Lemma newRequest_after_setup c c' endpoint options :
  checkSetup c = Done c' ->
  newRequest c' endpoint options =
  {| Method := "GET"; URL := requestURL c endpoint options;
     Header := [("Authorization", "Bearer " +:+ APIKey c)] |}.
Proof.
  intros Hs. destruct (checkSetup_cases c)
    as [(msg & Hp & _) | (c'' & Do & Hd & Hb & Hk & Hh & _)]; [congruence|].
  rewrite checkSetup_done in Hs by congruence. injection Hs as <-.
  unfold newRequest, makeURL, requestURL. simpl. now destruct options.
Qed.

(** A configured client whose URL [http.NewRequest] accepts hands exactly
    one request to its HTTP client: a GET, whatever [method] says, of
    root/version/base/endpoint?query with the defaults filled in and an empty
    query for nil options, carrying the API key as bearer token. *)
Theorem RequestBytes_sends_one_request method endpoint options c w Do :
  BaseID c <> "" -> APIKey c <> "" -> HTTPClient c = Some Do ->
  url_error (requestURL c endpoint options) = None ->
  sent (RequestBytes method endpoint options c w).2
  = {| Method := "GET"; URL := requestURL c endpoint options;
       Header := [("Authorization", "Bearer " +:+ APIKey c)] |} :: sent w.
Proof.
  intros Hb Hk Hh Hu. unfold RequestBytes.
  destruct (checkSetup_cases c)
    as [(msg & _ & [?|[?|?]]) | (c' & Do' & Hd & _ & _ & _ & Hh')];
    try congruence.
  rewrite Hd. cbv zeta. rewrite (newRequest_after_setup c c' _ _ Hd).
  cbn [URL]. rewrite Hu, Hh'.
  destruct (String.eqb (AIRTABLE_NO_LIMIT w) "");
    (destruct (Do' _) as [e|e|bytes]; try reflexivity;
     destruct (checkErrorResponse bytes); reflexivity).
Qed.

(** A call takes at most one token from the limiter and sends at most one
    request, and it takes the token exactly when a request is sent and
    [AIRTABLE_NO_LIMIT] is empty; the variable itself is left alone.  The
    earlier revision never takes a token. *)
Theorem RequestBytes_one_token_one_request :
  (forall method endpoint options c w,
     let w' := (RequestBytes method endpoint options c w).2 in
     AIRTABLE_NO_LIMIT w' = AIRTABLE_NO_LIMIT w
     /\ ((sent w' = sent w /\ limiterTakes w' = limiterTakes w)
         \/ (exists req, sent w' = req :: sent w
              /\ limiterTakes w' =
                   if String.eqb (AIRTABLE_NO_LIMIT w) ""
                   then S (limiterTakes w) else limiterTakes w)))
  /\ (forall httpclient resource options c w,
        let w' := (Legacy.RequestBytes httpclient resource options c w).2 in
        AIRTABLE_NO_LIMIT w' = AIRTABLE_NO_LIMIT w
        /\ limiterTakes w' = limiterTakes w
        /\ (sent w' = sent w \/ exists req, sent w' = req :: sent w)).
Proof.
  split.
  - intros method endpoint options c w. unfold RequestBytes.
    destruct (checkSetup_cases c)
      as [(msg & -> & _) | (c' & Do & -> & _ & _ & _ & Hh')].
    + cbn. auto.
    + cbv zeta. rewrite Hh'. destruct (url_error _); [cbn; auto|].
      assert (Hw : forall res cl,
        let w' := (res : result (option (list Byte.byte) * option error),
                   cl : Client,
                   send (newRequest c' endpoint options)
                     (if String.eqb (AIRTABLE_NO_LIMIT w) "" then take w else w)).2 in
        AIRTABLE_NO_LIMIT w' = AIRTABLE_NO_LIMIT w
        /\ ((sent w' = sent w /\ limiterTakes w' = limiterTakes w)
            \/ (exists req, sent w' = req :: sent w
                 /\ limiterTakes w' =
                      if String.eqb (AIRTABLE_NO_LIMIT w) ""
                      then S (limiterTakes w) else limiterTakes w))).
      { intros res cl. cbn.
        destruct (String.eqb (AIRTABLE_NO_LIMIT w) ""); cbn; eauto. }
      destruct (Do _) as [e|e|bytes]; try apply Hw.
      destruct (checkErrorResponse bytes); apply Hw.
  - intros httpclient resource options c w. unfold Legacy.RequestBytes.
    destruct (Legacy.checkSetup c) as [[err|] c']; [cbn; auto|].
    cbv zeta. destruct (url_error _); [cbn; auto|].
    destruct (httpclient _) as [e|e|bytes]; try (cbn; eauto).
    destruct (checkErrorResponse bytes); cbn; eauto.
Qed.

(** What [RequestBytes] returns: nil bytes only together with an error of
    the transport, never nil bytes with a nil error; and bytes only when the
    HTTP client of the client gave that body for the request, together with
    just what the probe for an error envelope says of it. *)
Theorem RequestBytes_returns method endpoint options c w bytes err :
  (RequestBytes method endpoint options c w).1.1 = Return (bytes, err) ->
  match bytes with
  | None => exists e, err = Some (TransportError e)
  | Some b =>
      err = checkErrorResponse b
      /\ exists c' Do,
           checkSetup c = Done c' /\ HTTPClient c' = Some Do
           /\ Do (newRequest c' endpoint options) = Body b
  end.
Proof.
  unfold RequestBytes.
  destruct (checkSetup c) as [c'|msg c'] eqn:Hs; [|discriminate].
  cbv zeta. destruct (url_error _); [intros [= <- <-]; eauto|].
  destruct (HTTPClient c') as [Do|] eqn:Hh; [|discriminate].
  destruct (Do _) as [e|e|b] eqn:Hd; try (intros [= <- <-]; eauto).
  destruct (checkErrorResponse b) eqn:Hc; intros [= <- <-];
    (split; [now rewrite Hc | eauto]).
Qed.

End RequestFacts.

Lemma RequestBytes_sends_one_request_witness :
  sent (RequestBytes (H := samplePlatform) "POST" "Main/rec1" None sampleClient
          sampleWorld).2
  = [{| Method := "GET";
        URL := "https://api.airtable.com/v0/appXXX/Main/rec1?";
        Header := [("Authorization", "Bearer key123")] |}].
Proof.
  apply (RequestBytes_sends_one_request (H := samplePlatform) "POST" "Main/rec1"
           None sampleClient sampleWorld sampleTransport);
    reflexivity || discriminate.
Defined.

Lemma RequestBytes_returns_witness :
  Some (ErrClientRequestError "bad formula")
  = checkErrorResponse (H := samplePlatform) (list_byte_of_string errorBody).
Proof.
  apply (RequestBytes_returns (H := samplePlatform) "GET" "Main"
           (Some {| Encode := "fields=bad" |}) sampleClient sampleWorld
           (Some (list_byte_of_string errorBody))
           (Some (ErrClientRequestError "bad formula"))).
  reflexivity.
Defined.

Section ProbeFacts.
Context `{Platform}.

(** Without a member for [error] the probe leaves [reqerr] empty. *)
Lemma decodeErrorResponse_no_error ms :
  membersFor ["error"] "error" ms = [] ->
  decodeErrorResponse (JObject ms)
  = ({| Error_Type := ""; Error_Message := "" |}, None).
Proof.
  unfold decodeErrorResponse.
  generalize ({| Error_Type := ""; Error_Message := "" |}, @None error).
  induction ms as [|[k d] ms IH]; intros acc Hm; [reflexivity|].
  rewrite membersFor_cons in Hm. simpl in *.
  destruct (findField ["error"] k) as [n|] eqn:Hf.
  - pose proof (findField_In _ _ _ Hf) as [<-|[]].
    rewrite bool_decide_eq_true_2 in Hm by reflexivity. discriminate.
  - rewrite bool_decide_eq_false_2 in Hm by discriminate. now apply IH.
Qed.

(** A body passes the probe when it is an object without a member for
    [error], as the envelope of a record is, and also when its error envelope
    has an empty type, whatever the message. *)
Theorem checkErrorResponse_passes b :
  (forall ms, json_parse b = Some (JObject ms) ->
     membersFor ["error"] "error" ms = [] -> checkErrorResponse b = None)
  /\ (forall d message, json_parse b = Some d ->
        errorEnvelope d "" message -> checkErrorResponse b = None).
Proof.
  split.
  - intros ms Hp Hm. unfold checkErrorResponse, Unmarshal_errorResponse.
    now rewrite Hp, (decodeErrorResponse_no_error ms Hm).
  - intros d message Hp He. unfold checkErrorResponse, Unmarshal_errorResponse.
    now rewrite Hp, (decodeErrorResponse_envelope _ _ _ He).
Qed.

(** What each answer of the probe says of the body: a syntax error exactly
    for bytes that are no JSON, an [ErrClientRequestError] only for an object
    with a member for [error]; the other answers, nil and a type mismatch,
    are for valid JSON, and no other kind of error comes out of it. *)
Theorem checkErrorResponse_kinds b :
  match checkErrorResponse b with
  | None => exists d, json_parse b = Some d
  | Some SyntaxError => json_parse b = None
  | Some (UnmarshalTypeError _ _) => exists d, json_parse b = Some d
  | Some (ErrClientRequestError _) =>
      exists ms, json_parse b = Some (JObject ms)
                 /\ membersFor ["error"] "error" ms <> []
  | Some (ErrClientSetupError _) | Some (TransportError _) => False
  end.
Proof.
  unfold checkErrorResponse, Unmarshal_errorResponse.
  destruct (json_parse b) as [d|]; [|reflexivity].
  pose proof (decodeErrorResponse_saved d) as Hs.
  destruct (decodeErrorResponse d) as [reqerr [e|]] eqn:Hd; simpl in Hs.
  - destruct e; try contradiction. eauto.
  - destruct (String.eqb (Error_Type reqerr) "") eqn:Ht; [eauto|].
    destruct d; try (simpl in Hd; injection Hd as <-; discriminate).
    exists members. split; [reflexivity|]. intros Hm.
    rewrite (decodeErrorResponse_no_error _ Hm) in Hd.
    injection Hd as <-. discriminate.
Qed.


End ProbeFacts.

Lemma checkErrorResponse_passes_witness :
  checkErrorResponse (H := samplePlatform) (list_byte_of_string recordBody) = None.
Proof.
  apply (proj1 (checkErrorResponse_passes (H := samplePlatform)
                  (list_byte_of_string recordBody))
           [("id", JString "rec1"); ("fields", JObject [("Name", JString "Tom")])]);
    reflexivity.
Defined.


(** * Further properties of the mapper *)

Section FieldwiseFacts.
Context `{Platform}.

(** The loop of [Get] column by column.  When it ends normally, every field
    whose key is missing or null holds what it held and every other field
    holds what the [switch] made of its value.  When it panics, it is at one
    field, on the value at that field's key; the fields before it are set as
    on success and the fields after it are untouched.  The struct keeps its
    number of fields either way. *)
Theorem getRecord_column_by_column selfParse fields vals Fields :
  exists o,
    getRecord (TStruct selfParse fields) (VStruct vals) Fields = wrapStruct o
    /\ fieldsResult assignPresent flagRW Fields fields vals o.
Proof.
  exists (getFields Fields fields 0 vals). split.
  - simpl. now destruct (getFields Fields fields 0 vals).
  - rewrite getFields_as_structFields. apply structFields_result.
Qed.

(** The generic path of [handleStruct] field by field: as the loop of [Get],
    but through the nested [switch] and with no field passed over. *)
Theorem handleStruct_field_by_field fl key fields vals m :
  exists o,
    handleStruct fl key (TStruct None fields) (VStruct vals) (AMap m)
    = wrapStruct o
    /\ fieldsResult assignNested fl m fields vals o.
Proof.
  exists (structFields assignNested fl m fields 0 vals). split.
  - rewrite handleStruct_generic. now destruct (structFields _ _ _ _ _ _).
  - apply structFields_result.
Qed.

(** A slot of interface kind, or of a kind the mapper does not know. *)
#[local] Abbreviation unhandled t :=
  (t = TInterface \/ (exists typ, t = TInterfaceWith typ)
   \/ (exists kind, t = TOther kind)).




End FieldwiseFacts.


(** The same columns through the loop of [Get]. *)
Example interface_column_taken_over :
  getRecord (H := samplePlatform)
    (TStruct None [mkField "Formula" None TInterface]) (VStruct [VInterface Nil])
    {[ "Formula" := AString "#ERROR!" ]}
  = Done (VStruct [VInterface (AString "#ERROR!")])
  /\ getRecord (H := samplePlatform)
       (TStruct None [mkStructField "formula" None TInterface "main" false])
       (VStruct [VInterface Nil]) {[ "formula" := AString "#ERROR!" ]}
     = Panic "reflect: reflect.Value.Set using value obtained using unexported field"
         (VStruct [VInterface Nil])
  /\ getRecord (H := samplePlatform)
       (TStruct None [mkField "Formula" None (TInterfaceWith "fmt.Stringer")])
       (VStruct [VInterface Nil]) {[ "Formula" := AString "#ERROR!" ]}
     = Panic "reflect.Set: value of type string is not assignable to type fmt.Stringer"
         (VStruct [VInterface Nil]).
Proof. repeat split; vm_compute; reflexivity. Qed.

(** A number that no [float64] holds is an error of the decoder, which [Get]
    returns before it maps anything. *)
Example number_out_of_range_is_reported :
  Get (H := samplePlatform) (NewResource "Main" (NameRecord, 1%positive))
    "rec3" None sampleState
  = (Return (None, Some (UnmarshalTypeError "number 1e400" "float64")),
     {| client := stateOf (checkSetup sampleClient);
        heap := heap sampleState;
        world := (RequestBytes (H := samplePlatform) "GET" "Main/rec3" None
                    sampleClient sampleWorld).2 |}).
Proof. vm_compute. reflexivity. Qed.

Section TypeFacts.
Context `{Platform}.

#[local] Abbreviation typed := (fun (f : StructField gotype) (x : value) =>
                                  hasType (Type_ f) x = true).

Lemma hasType_struct selfParse fs x :
  hasType (TStruct selfParse fs) x = true <->
  exists vals, x = VStruct vals /\ Forall2 typed fs vals.
Proof.
  destruct x; simpl; try (split; [discriminate | intros (? & [=] & _)]).
  revert fields. induction fs as [|f fs IH]; intros [|x vals].
  - split; [intros _; exists []; split; [reflexivity | constructor]|reflexivity].
  - split; [discriminate|]. intros (? & [= <-] & Hf). inversion Hf.
  - split; [discriminate|]. intros (? & [= <-] & Hf). inversion Hf.
  - rewrite andb_true_iff, IH. split.
    + intros (Hx & vals' & [= <-] & Hf). exists (x :: vals). split; [reflexivity|].
      now constructor.
    + intros (? & [= <-] & Hf). inversion Hf; subst. split; [assumption|].
      exists vals. auto.
Qed.

Lemma hooksKeepType_fields fs :
  hooksKeepType (TStruct None fs) <->
  Forall (fun f => hooksKeepType (Type_ f)) fs.
Proof.
  simpl. induction fs as [|f fs IH]; [split; constructor|].
  rewrite IH. split.
  - intros [Hf Hfs]. now constructor.
  - intros Hf. inversion Hf; subst. auto.
Qed.

(** The zero value of a type has that type. *)
Lemma zero_hasType t : hasType t (zero t) = true.
Proof.
  induction t as [| | | | |typ|elem IH|selfParse fs IH|kind]
    using gotype_nested_ind; try reflexivity.
  apply hasType_struct. eexists. split; [reflexivity|].
  induction IH as [|f fs Hf _ IHfs]; simpl; constructor; assumption.
Qed.

(** A loop over the fields keeps them typed when its [switch] does. *)
Lemma structFields_typed assign fl m all :
  Forall (fun f => forall fl' key cur v,
            hasType (Type_ f) cur = true ->
            hasType (Type_ f) (stateOf (assign fl' (Type_ f) key cur v)) = true)
    all ->
  forall fs i vals,
    drop i all = fs -> Forall2 typed all vals ->
    Forall2 typed all (stateOf (structFields assign fl m fs i vals)).
Proof.
  intros Hassign. induction fs as [|g fs IH]; intros i vals Hdrop Hty;
    [exact Hty|].
  assert (Hg : all !! i = Some g).
  { rewrite <- (Nat.add_0_r i), <- lookup_drop, Hdrop. reflexivity. }
  assert (Hfs : drop (S i) all = fs).
  { rewrite (drop_S _ _ _ Hg) in Hdrop. now injection Hdrop. }
  simpl. destruct (vals !! i) as [f|] eqn:Hf; [|exact Hty].
  pose proof (Forall2_lookup_lr _ _ _ _ _ _ Hty Hg Hf) as Hcur.
  pose proof (proj1 (Forall_lookup _ _) Hassign i g Hg (fieldFlag fl g)
                (fieldKey g) f (index m (fieldKey g)) Hcur) as Hx.
  assert (Hins : forall x, hasType (Type_ g) x = true ->
                           Forall2 typed all (<[i:=x]> vals)).
  { intros x Hx'. rewrite <- (list_insert_id all i g Hg).
    now apply Forall2_insert. }
  destruct (assign (fieldFlag fl g) (Type_ g) (fieldKey g) f
              (index m (fieldKey g))) as [x|msg x]; simpl in Hx.
  - apply IH; [exact Hfs | now apply Hins].
  - now apply Hins.
Qed.

Lemma assignNested_typed t :
  hooksKeepType t ->
  forall fl key cur v,
    hasType t cur = true ->
    hasType t (stateOf (assignNested fl t key cur v)) = true.
Proof.
  induction t as [| | | | |typ|elem IH|selfParse fs IH|kind]
    using gotype_nested_ind;
    intros Hhooks fl key cur v Hcur;
    try (destruct v; simpl; try destruct (ro fl); (assumption || reflexivity)).
  - change (assignNested fl (TSlice elem) key cur v)
      with (handleSlice fl key (TSlice elem) cur v).
    destruct v; try exact Hcur. rewrite handleSlice_array.
    destruct (sliceElems assignNested key elem s) as [dst|msg dst] eqn:Hs;
      [|exact Hcur].
    destruct (ro fl); [exact Hcur|].
    apply sliceElems_done in Hs. simpl. apply Is_true_true, forallb_True.
    induction Hs as [|e x es xs He _ IHs]; constructor; [|exact IHs].
    pose proof (IH Hhooks flagRW key (zero elem) e (zero_hasType elem)) as Hx.
    rewrite He in Hx. apply Is_true_true. exact Hx.
  - change (assignNested fl (TStruct selfParse fs) key cur v)
      with (handleStruct fl key (TStruct selfParse fs) cur v).
    destruct selfParse as [maybeParse|].
    + rewrite handleStruct_hook. destruct (ro fl); [exact Hcur|].
      specialize (Hhooks v cur Hcur).
      now destruct (maybeParse v cur).
    + destruct v; try exact Hcur.
      apply hasType_struct in Hcur as (vals & -> & Hty).
      rewrite handleStruct_generic.
      assert (Hloop : Forall2 typed fs
                (stateOf (structFields assignNested fl m fs 0 vals))).
      { apply structFields_typed; [|reflexivity|exact Hty].
        apply hooksKeepType_fields in Hhooks.
        apply Forall_lookup. intros i f Hi.
        apply (proj1 (Forall_lookup _ _) IH i f Hi).
        apply (proj1 (Forall_lookup _ _) Hhooks i f Hi). }
      destruct (structFields assignNested fl m fs 0 vals);
        cbn [stateOf] in *; apply hasType_struct; eauto.
Qed.

Lemma handleInterface_typed fl key t cur v :
  t = TInterface \/ (exists typ, t = TInterfaceWith typ) ->
  hasType t cur = true ->
  hasType t (stateOf (handleInterface fl key t cur v)) = true.
Proof.
  intros Ht Hcur. unfold handleInterface.
  destruct (ro fl); [exact Hcur|].
  destruct Ht as [->|[typ ->]]; destruct v; (exact Hcur || reflexivity).
Qed.

Lemma assignTop_typed t :
  hooksKeepType t ->
  forall fl key cur v,
    hasType t cur = true ->
    hasType t (stateOf (assignTop fl t key cur v)) = true.
Proof.
  intros Hhooks fl key cur v Hcur.
  pose proof (assignNested_typed t Hhooks fl key cur v Hcur) as Hn.
  destruct t; try exact Hn; cbn [assignTop];
    apply handleInterface_typed; eauto.
Qed.

Lemma assignPresent_typed t :
  hooksKeepType t ->
  forall fl key cur v,
    hasType t cur = true ->
    hasType t (stateOf (assignPresent fl t key cur v)) = true.
Proof.
  intros Hhooks fl key cur v Hcur. unfold assignPresent.
  pose proof (assignTop_typed t Hhooks fl key cur v Hcur) as Hn.
  destruct v; (exact Hcur || exact Hn).
Qed.

(** The mapper keeps the record well-typed: if the struct has the shape of
    its type before the mapping, and every [SelfParse] hook in the types of
    its fields keeps the shape of its slot, then the struct has the shape of
    its type after the mapping, whether this ended normally or in a panic and
    whatever the fields map held.  The same holds of a single slot under
    either [switch]. *)
Theorem mapper_keeps_types :
  (forall selfParse fields s Fields,
     hooksKeepType (TStruct None fields) ->
     hasType (TStruct selfParse fields) s = true ->
     hasType (TStruct selfParse fields)
       (stateOf (getRecord (TStruct selfParse fields) s Fields)) = true)
  /\ (forall fl t s key v,
        hooksKeepType t -> hasType t s = true ->
        hasType t (stateOf (assignTop fl t key s v)) = true
        /\ hasType t (stateOf (assignNested fl t key s v)) = true).
Proof.
  split.
  - intros selfParse fields s Fields Hhooks Hs.
    apply hasType_struct in Hs as (vals & -> & Hty). unfold getRecord.
    rewrite getFields_as_structFields.
    assert (Hloop : Forall2 typed fields
              (stateOf (structFields assignPresent flagRW Fields fields 0 vals))).
    { apply structFields_typed; [|reflexivity|exact Hty].
      apply Forall_lookup. intros i f Hi. apply assignPresent_typed.
      apply hooksKeepType_fields in Hhooks.
      apply (proj1 (Forall_lookup _ _) Hhooks i f Hi). }
    destruct (structFields assignPresent flagRW Fields fields 0 vals);
      cbn [stateOf] in *; apply hasType_struct; eauto.
  - intros fl t s key v Hhooks Hs. split.
    + now apply assignTop_typed.
    + now apply assignNested_typed.
Qed.

End TypeFacts.

Lemma mapper_keeps_types_witness :
  hasType ThumbRecord
    (stateOf (getRecord (H := samplePlatform) ThumbRecord (zero ThumbRecord)
                {[ "Name" := AString "Tom";
                   "Thumbnail" := AMap {[ "URL" := AString "a.png" ]} ]})) = true.
Proof.
  apply (proj1 (mapper_keeps_types (H := samplePlatform))).
  - cbv. tauto.
  - reflexivity.
Defined.

Section AbsentFacts.
Context `{Platform}.

(** A response none of whose fields is a column of the record, an empty
    fields map among them, leaves a well-typed record exactly as it is. *)
Theorem getRecord_absent_columns selfParse fields s Fields :
  hasType (TStruct selfParse fields) s = true ->
  (forall fType, In fType fields -> index Fields (fieldKey fType) = Nil) ->
  getRecord (TStruct selfParse fields) s Fields = Done s.
Proof.
  intros Hs Hk. apply hasType_struct in Hs as (vals & -> & Hty). unfold getRecord.
  rewrite (getFields_skips_missing Fields fields 0%nat vals Hk); [reflexivity|].
  apply Forall2_length in Hty. simpl. lia.
Qed.

End AbsentFacts.

Lemma getRecord_absent_columns_witness :
  getRecord (H := samplePlatform) ThumbRecord
    (VStruct [VString "Tom"; zero AttachmentThumbnail]) ∅
  = Done (VStruct [VString "Tom"; zero AttachmentThumbnail]).
Proof.
  apply (getRecord_absent_columns (H := samplePlatform)); [reflexivity|].
  intros fType _. reflexivity.
Defined.

(** * The mapping of the earlier revision *)

Section LegacyFacts.
Variable Fields : gmap string any.
Variable all : list (StructField gotype).

(** A field of the struct of a record is read-only exactly when it is not
    exported. *)
Lemma ro_fieldFlag_top (f : StructField gotype) :
  ro (fieldFlag flagRW f) = unexported f.
Proof.
  unfold ro, fieldFlag. cbn [flagStickyRO flagEmbedRO flagRW].
  now destruct (unexported f), (Anonymous f).
Qed.

(** One turn of the loop: it goes on, with the field as it was or, for an
    exported string field given a string, set to it; or it panics, at a
    string field given something else, or at an unexported string field
    given a string. *)
Lemma legacy_getFields_step g fs i st f :
  st.1 !! i = Some f ->
  (exists st1,
     Legacy.getFields Fields (g :: fs) i st = Legacy.getFields Fields fs (S i) st1
     /\ ((st1.1 = st.1
          /\ (Type_ g <> TString \/ index Fields (fieldKey g) = Nil))
         \/ exists s, Type_ g = TString
                      /\ index Fields (fieldKey g) = AString s
                      /\ unexported g = false
                      /\ st1.1 = <[i:=VString s]> st.1))
  \/ (Legacy.getFields Fields (g :: fs) i st
      = Panic "could not assert value as string" st
      /\ Type_ g = TString
      /\ index Fields (fieldKey g) <> Nil
      /\ forall s, index Fields (fieldKey g) <> AString s)
  \/ (Legacy.getFields Fields (g :: fs) i st
      = Panic (unexportedPanic "SetString") st
      /\ Type_ g = TString
      /\ unexported g = true
      /\ exists s, index Fields (fieldKey g) = AString s).
Proof.
  intros Hf. cbn [Legacy.getFields]. rewrite Hf.
  destruct (index Fields (fieldKey g)) eqn:Hv; destruct (Type_ g) eqn:Ht;
    try (match goal with
         | |- context [if ro ?x then _ else _] =>
             destruct (ro x) eqn:Hro; rewrite ro_fieldFlag_top in Hro
         end);
    first
      [ left; eexists; split; [reflexivity|]; cbn [fst];
        first [left; split; [reflexivity|];
               (left; discriminate) || (right; reflexivity)
              | right; eexists; repeat split; (reflexivity || assumption)]
      | right; left; repeat split; discriminate
      | right; right; repeat split; (assumption || eauto) ].
Qed.

Lemma legacy_getFields_from fs : forall i st,
  drop i all = fs ->
  let o := Legacy.getFields Fields fs i st in
  length (stateOf o).1 = length st.1
  /\ (forall k,
        (k < i)%nat \/ (forall fType, all !! k = Some fType -> Type_ fType <> TString) ->
        (stateOf o).1 !! k = st.1 !! k)
  /\ match o with
     | Done st' =>
         forall k fType, (i <= k)%nat -> all !! k = Some fType ->
           Type_ fType = TString ->
           match index Fields (fieldKey fType) with
           | Nil => st'.1 !! k = st.1 !! k
           | AString s =>
               st'.1 !! k = Some (VString s) /\ unexported fType = false
           | _ => False
           end
     | Panic msg st' =>
         msg = "reflect: Field index out of range"
         \/ (msg = "could not assert value as string"
             /\ exists k fType,
                  (i <= k)%nat /\ all !! k = Some fType /\ Type_ fType = TString
                  /\ index Fields (fieldKey fType) <> Nil
                  /\ forall s, index Fields (fieldKey fType) <> AString s)
         \/ (msg = unexportedPanic "SetString"
             /\ exists k fType,
                  (i <= k)%nat /\ all !! k = Some fType /\ Type_ fType = TString
                  /\ unexported fType = true
                  /\ exists s, index Fields (fieldKey fType) = AString s)
     end.
Proof.
  induction fs as [|g fs IH]; intros i st Hdrop.
  - simpl. repeat split; try reflexivity.
    intros k fType Hk Hl. apply lookup_lt_Some in Hl.
    apply (f_equal length) in Hdrop. rewrite length_drop in Hdrop.
    simpl in Hdrop. lia.
  - assert (Hg : all !! i = Some g).
    { rewrite <- (Nat.add_0_r i), <- lookup_drop, Hdrop. reflexivity. }
    assert (Hfs : drop (S i) all = fs).
    { rewrite (drop_S _ _ _ Hg) in Hdrop. now injection Hdrop. }
    destruct (st.1 !! i) as [f|] eqn:Hf.
    + pose proof (lookup_lt_Some _ _ _ Hf) as Hi.
      destruct (legacy_getFields_step g fs i st f Hf)
        as [(st1 & -> & Hst1) | [(-> & Ht & Hn & Hs) | (-> & Ht & Hu & Hs)]].
      * specialize (IH (S i) st1 Hfs). cbv zeta in IH.
        destruct IH as (Hl & Hsame & Hrest).
        assert (Hl1 : length st1.1 = length st.1).
        { destruct Hst1 as [[-> _]|(s & _ & _ & _ & ->)];
            [reflexivity | apply length_insert]. }
        assert (Hne : forall k, k <> i -> st1.1 !! k = st.1 !! k).
        { intros k Hk. destruct Hst1 as [[-> _]|(s & _ & _ & _ & ->)];
            [reflexivity | apply list_lookup_insert_ne; lia]. }
        split; [congruence|]. split.
        { intros k [Hk|Hk].
          - rewrite Hsame by (left; lia). apply Hne. lia.
          - rewrite Hsame by (right; exact Hk).
            destruct Hst1 as [[-> _]|(s & Ht & _ & _ & ->)]; [reflexivity|].
            apply list_lookup_insert_ne. intros <-. now apply (Hk g). }
        destruct (Legacy.getFields Fields fs (S i) st1) as [st'|msg st'];
          cbn [stateOf] in *.
        -- intros k fType Hk Hl' Ht. destruct (decide (k = i)) as [->|Hki].
           ++ rewrite Hg in Hl'. injection Hl' as <-.
              rewrite Hsame by (left; lia).
              destruct Hst1 as [[-> [Hns| ->]]|(s & _ & -> & Hexp & ->)];
                [contradiction | reflexivity |].
              split; [now apply list_lookup_insert_eq | exact Hexp].
           ++ specialize (Hrest k fType ltac:(lia) Hl' Ht).
              rewrite Hne in Hrest by exact Hki. exact Hrest.
        -- destruct Hrest as [->|[(-> & k & fType & Hk & Hrest)
                                 |(-> & k & fType & Hk & Hrest)]];
             [now left | |].
           ++ right. left. split; [reflexivity|].
              exists k, fType. split; [lia|exact Hrest].
           ++ right. right. split; [reflexivity|].
              exists k, fType. split; [lia|exact Hrest].
      * simpl. repeat split; try reflexivity.
        right. left. split; [reflexivity|]. exists i, g. auto.
      * simpl. repeat split; try reflexivity.
        right. right. split; [reflexivity|]. exists i, g. auto.
    + cbn [Legacy.getFields]. rewrite Hf. simpl. repeat split; try reflexivity.
      now left.
Qed.

(** The earlier [Get] maps string columns only.  Its loop never changes a
    field that is not of string kind, and keeps the number of fields.  When
    it ends normally, each string field holds the string at its key, and is
    then an exported field, or what it held when the key is missing or null.
    It panics at a string field whose value is there and is no string, and
    in [reflect], at [f.SetString], at a string field that is not exported
    and whose value is a string; it panics nowhere else, unless the struct
    is shorter than its type. *)
Theorem legacy_maps_strings_only vals out :
  let o := Legacy.getFields Fields all 0 (vals, out) in
  length (stateOf o).1 = length vals
  /\ (forall k,
        (forall fType, all !! k = Some fType -> Type_ fType <> TString) ->
        (stateOf o).1 !! k = vals !! k)
  /\ match o with
     | Done st' =>
         forall k fType, all !! k = Some fType -> Type_ fType = TString ->
           match index Fields (fieldKey fType) with
           | Nil => st'.1 !! k = vals !! k
           | AString s =>
               st'.1 !! k = Some (VString s) /\ unexported fType = false
           | _ => False
           end
     | Panic msg st' =>
         msg = "reflect: Field index out of range"
         \/ (msg = "could not assert value as string"
             /\ exists k fType,
                  all !! k = Some fType /\ Type_ fType = TString
                  /\ index Fields (fieldKey fType) <> Nil
                  /\ forall s, index Fields (fieldKey fType) <> AString s)
         \/ (msg = "reflect: reflect.Value.SetString using value obtained using unexported field"
             /\ exists k fType,
                  all !! k = Some fType /\ Type_ fType = TString
                  /\ unexported fType = true
                  /\ exists s, index Fields (fieldKey fType) = AString s)
     end.
Proof.
  destruct (legacy_getFields_from all 0%nat (vals, out) eq_refl)
    as (Hl & Hsame & Hrest).
  split; [exact Hl|]. split; [intros k Hk; apply Hsame; now right|].
  destruct (Legacy.getFields Fields all 0 (vals, out)) as [st'|msg st'].
  - intros k fType. apply Hrest. lia.
  - destruct Hrest as [->|[(-> & k & fType & _ & Hrest)
                          |(-> & k & fType & _ & Hrest)]]; [now left| |].
    + right. left. split; [reflexivity|]. exists k, fType. exact Hrest.
    + right. right. split; [reflexivity|]. exists k, fType. exact Hrest.
Qed.

(** A string column in a field that is not exported: the earlier [Get]
    panics too. *)
Example legacy_unexported_string_panics :
  Legacy.getFields {[ "name" := AString "Tom" ]}
    [mkStructField "name" None TString "main" false] 0 ([VString ""], "")
  = Panic "reflect: reflect.Value.SetString using value obtained using unexported field"
      ([VString ""], "").
Proof. vm_compute. reflexivity. Qed.

End LegacyFacts.

Section LateFacts.
Context `{Platform}.

(** A URL that [http.NewRequest] refuses ends the call before the limiter
    and the HTTP client are reached: the error comes back with nil bytes and
    the world is as it was. *)
Theorem RequestBytes_refused_url method endpoint options c w Do e :
  BaseID c <> "" -> APIKey c <> "" -> HTTPClient c = Some Do ->
  url_error (requestURL c endpoint options) = Some e ->
  (RequestBytes method endpoint options c w).1.1
  = Return (None, Some (TransportError e))
  /\ (RequestBytes method endpoint options c w).2 = w.
Proof.
  intros Hb Hk Hh Hu. unfold RequestBytes.
  destruct (checkSetup_cases c)
    as [(msg & _ & [?|[?|?]]) | (c' & Do' & Hd & _)]; try congruence.
  rewrite Hd. cbv zeta. rewrite (newRequest_after_setup c c' _ _ Hd).
  cbn [URL]. rewrite Hu. split; reflexivity.
Qed.

(** [Get] looks at what its record is only after the request: with a record
    that is no struct, or an address that holds none, the call goes to the
    service as any other, stores nothing and cannot end well. *)
Theorem Get_checks_record_late r id options st :
  (forall selfParse fields vals,
     recordType r = TStruct selfParse fields ->
     heap st !! record r <> Some (VStruct vals)) ->
  heap (Get r id options st).2 = heap st
  /\ world (Get r id options st).2
     = (RequestBytes "GET" (path_join (name r) id) options (client st)
          (world st)).2
  /\ forall resp, (Get r id options st).1 <> Return (Some resp, None).
Proof.
  intros Hr. unfold Get.
  destruct (RequestBytes _ _ _ _ _) as [[res c] w].
  destruct res as [[bytes [e|]]|msg]; try (repeat split; discriminate).
  destruct (Unmarshal_GetResponse _) as [resp' [e|]];
    try (repeat split; discriminate).
  cbn [heap]. destruct (heap st !! record r) as [s|] eqn:Hs;
    try (repeat split; discriminate).
  unfold getRecord.
  destruct (recordType r) as [| | | | | | |sp fs|] eqn:Ht;
    [| | | | | | |destruct s as [| | | | | | |vals|];
                 [| | | | | | |destruct (Hr sp fs vals eq_refl eq_refl)|]|];
    (cbn [fst snd heap world]; split;
     [apply insert_id; exact Hs | split; [reflexivity | discriminate]]).
Qed.

End LateFacts.

Lemma RequestBytes_refused_url_witness :
  (RequestBytes
     (H := {| float_overflow := fun _ => 0; int_size := Int64;
              parse_float := fun _ => None; json_parse := fun _ => None;
              fold_match := fun _ _ => false;
              url_error := fun _ => Some "invalid URL escape";
              path_join := fun a b => a +:+ "/" +:+ b |})
     "GET" "Main/%zz" None sampleClient sampleWorld).2 = sampleWorld.
Proof.
  eapply (RequestBytes_refused_url "GET" "Main/%zz" None sampleClient sampleWorld);
    reflexivity || discriminate.
Defined.

Lemma Get_checks_record_late_witness :
  heap (Get (H := samplePlatform) (NewResource "Main" (TString, 1%positive))
          "rec1" None sampleState).2 = heap sampleState
  /\ sent (world (Get (H := samplePlatform)
                    (NewResource "Main" (TString, 1%positive)) "rec1" None
                    sampleState).2)
     = [{| Method := "GET";
           URL := "https://api.airtable.com/v0/appXXX/Main/rec1?";
           Header := [("Authorization", "Bearer key123")] |}].
Proof.
  destruct (Get_checks_record_late (H := samplePlatform)
              (NewResource "Main" (TString, 1%positive)) "rec1" None sampleState)
    as (Hheap & Hworld & _).
  - intros selfParse fields vals. discriminate.
  - split; [exact Hheap|]. rewrite Hworld. reflexivity.
Defined.

Section LegacyGetFacts.
Context `{Platform}.
Variable httpclient : Request -> response.


Theorem legacy_Get_without_setup r id options st :
  Legacy.APIKey (Legacy.client st) = "" \/ Legacy.BaseID (Legacy.client st) = "" ->
  exists msg,
    Legacy.Get httpclient r id options st
    = (Return (None, Some (ErrClientSetupError msg)), st).
Proof.
  intros Hc. unfold Legacy.Get, Legacy.RequestBytes, Legacy.checkSetup.
  destruct st as [c hp w out]. cbn [Legacy.client Legacy.world Legacy.heap
                                     Legacy.stdout] in *.
  destruct (String.eqb (Legacy.BaseID c) "") eqn:Hb; [eauto|].
  destruct Hc as [Hk|Hb']; [|rewrite Hb' in Hb; discriminate].
  rewrite Hk. simpl. eauto.
Qed.

End LegacyGetFacts.


Lemma legacy_Get_without_setup_witness :
  exists msg,
    Legacy.Get (H := samplePlatform) sampleTransport
      (NewResource "Main" (NameRecord, 1%positive)) "rec1" None
      {| Legacy.client := unsetLegacyClient;
         Legacy.heap := {[ 1%positive := zero NameRecord ]};
         Legacy.world := sampleWorld; Legacy.stdout := "" |}
    = (Return (None, Some (ErrClientSetupError msg)),
       {| Legacy.client := unsetLegacyClient;
          Legacy.heap := {[ 1%positive := zero NameRecord ]};
          Legacy.world := sampleWorld; Legacy.stdout := "" |}).
Proof.
  apply (legacy_Get_without_setup (H := samplePlatform)). left. reflexivity.
Defined.

(** * Mapping again *)

Section OverwriteFacts.
Context `{Platform}.

#[local] Abbreviation typed := (fun (f : StructField gotype) (x : value) =>
                                  hasType (Type_ f) x = true).

Lemma hookfree_fields fs :
  hookfree (TStruct None fs) <-> Forall (fun f => hookfree (Type_ f)) fs.
Proof.
  simpl. induction fs as [|f fs IH]; [split; constructor|].
  rewrite IH. split.
  - intros [Hf Hfs]. now constructor.
  - intros Hf. inversion Hf; subst. auto.
Qed.

Lemma hookfree_keeps t : hookfree t -> hooksKeepType t.
Proof.
  induction t as [| | | | |typ|elem IH|selfParse fs IH|kind]
    using gotype_nested_ind; try (intros; exact I); [exact IH|].
  destruct selfParse as [maybeParse|]; [intros []|].
  intros Hfree. apply hooksKeepType_fields. apply hookfree_fields in Hfree.
  apply Forall_lookup. intros i f Hi.
  apply (proj1 (Forall_lookup _ _) IH i f Hi).
  apply (proj1 (Forall_lookup _ _) Hfree i f Hi).
Qed.

(** Two runs of a loop from structs that agree before field [i]. *)
Lemma structFields_overwrite assign fl m all :
  Forall (fun f => forall fl' key cur v,
            hasType (Type_ f) cur = true ->
            hasType (Type_ f) (stateOf (assign fl' (Type_ f) key cur v)) = true)
    all ->
  Forall (fun f => forall fl' key cur1 cur2 v x,
            hasType (Type_ f) cur1 = true -> hasType (Type_ f) cur2 = true ->
            assign fl' (Type_ f) key cur1 v = Done x ->
            assign fl' (Type_ f) key cur2 v = Done x) all ->
  forall fs i vals1 vals2 r,
    drop i all = fs ->
    Forall2 typed all vals1 -> Forall2 typed all vals2 ->
    firstn i vals1 = firstn i vals2 ->
    structFields assign fl m fs i vals1 = Done r ->
    structFields assign fl m fs i vals2 = Done r.
Proof.
  intros Hkeep Hover. induction fs as [|g fs IH];
    intros i vals1 vals2 r Hdrop Hty1 Hty2 Htake.
  - simpl. intros [= <-]. f_equal.
    apply (f_equal length) in Hdrop. rewrite length_drop in Hdrop. simpl in Hdrop.
    pose proof (Forall2_length _ _ _ Hty1). pose proof (Forall2_length _ _ _ Hty2).
    rewrite !take_ge in Htake by lia. now symmetry.
  - assert (Hg : all !! i = Some g).
    { rewrite <- (Nat.add_0_r i), <- lookup_drop, Hdrop. reflexivity. }
    assert (Hfs : drop (S i) all = fs).
    { rewrite (drop_S _ _ _ Hg) in Hdrop. now injection Hdrop. }
    destruct (Forall2_lookup_l _ _ _ _ _ Hty2 Hg) as (f2 & Hf2 & Hc2).
    simpl. rewrite Hf2. destruct (vals1 !! i) as [f1|] eqn:Hf1; [|discriminate].
    pose proof (Forall2_lookup_lr _ _ _ _ _ _ Hty1 Hg Hf1) as Hc1.
    destruct (assign (fieldFlag fl g) (Type_ g) (fieldKey g) f1
                (index m (fieldKey g))) as [x|msg x] eqn:Ha; [|discriminate].
    rewrite (proj1 (Forall_lookup _ _) Hover i g Hg _ _ _ _ _ _ Hc1 Hc2 Ha).
    assert (Hx : hasType (Type_ g) x = true).
    { pose proof (proj1 (Forall_lookup _ _) Hkeep i g Hg (fieldFlag fl g)
                    (fieldKey g) f1 (index m (fieldKey g)) Hc1) as Hx.
      now rewrite Ha in Hx. }
    assert (Hins : forall vals, Forall2 typed all vals ->
                                Forall2 typed all (<[i:=x]> vals)).
    { intros vals Hty. rewrite <- (list_insert_id all i g Hg).
      now apply Forall2_insert. }
    apply IH; [exact Hfs | now apply Hins | now apply Hins |].
    pose proof (lookup_lt_Some _ _ _ Hf1). pose proof (lookup_lt_Some _ _ _ Hf2).
    rewrite !(take_S_r _ _ x) by (now apply list_lookup_insert_eq).
    rewrite !take_insert_ge by lia. now rewrite Htake.
Qed.

Lemma assignNested_overwrite t :
  hookfree t ->
  forall fl key cur1 cur2 v x,
    hasType t cur1 = true -> hasType t cur2 = true ->
    assignNested fl t key cur1 v = Done x ->
    assignNested fl t key cur2 v = Done x.
Proof.
  induction t as [| | | | |typ|elem IH|selfParse fs IH|kind]
    using gotype_nested_ind;
    intros Hfree fl key cur1 cur2 v x Hc1 Hc2;
    try (destruct v; simpl; try destruct (ro fl); congruence).
  - change (assignNested fl (TSlice elem) key ?c v)
      with (handleSlice fl key (TSlice elem) c v).
    destruct v; try discriminate. rewrite !handleSlice_array.
    destruct (sliceElems assignNested key elem s); destruct (ro fl); congruence.
  - change (assignNested fl (TStruct selfParse fs) key ?c v)
      with (handleStruct fl key (TStruct selfParse fs) c v).
    destruct selfParse as [maybeParse|]; [destruct Hfree|].
    destruct v; try (destruct cur1; discriminate).
    apply hasType_struct in Hc1 as (vals1 & -> & Hty1).
    apply hasType_struct in Hc2 as (vals2 & -> & Hty2).
    rewrite !handleStruct_generic.
    destruct (structFields assignNested fl m fs 0 vals1) as [r|msg r] eqn:Hr;
      [|discriminate].
    intros [= <-].
    apply hookfree_fields in Hfree.
    rewrite (structFields_overwrite assignNested fl m fs)
      with (vals1 := vals1) (r := r);
      try reflexivity; try assumption.
    + apply Forall_lookup. intros i f Hi. apply assignNested_typed.
      apply hookfree_keeps. apply (proj1 (Forall_lookup _ _) Hfree i f Hi).
    + apply Forall_lookup. intros i f Hi.
      apply (proj1 (Forall_lookup _ _) IH i f Hi).
      apply (proj1 (Forall_lookup _ _) Hfree i f Hi).
Qed.

Lemma assignPresent_overwrite fl t key cur v x :
  hookfree t -> hasType t cur = true ->
  assignPresent fl t key cur v = Done x -> assignPresent fl t key x v = Done x.
Proof.
  intros Hfree Hc Ha.
  assert (Hx : hasType t x = true).
  { pose proof (assignPresent_typed t (hookfree_keeps t Hfree) fl key cur v Hc)
      as Hx.
    now rewrite Ha in Hx. }
  unfold assignPresent in *. destruct v; try congruence;
    (destruct t; try exact Ha;
     first [ exact (assignNested_overwrite _ Hfree fl key cur x _ x Hc Hx Ha)
           | unfold assignTop, handleInterface in Ha |- *;
             destruct (ro fl); try discriminate; exact Ha ]).
Qed.

(** A loop whose every field already holds what the loop gives it. *)
Lemma structFields_fixed assign fl m all r fs : forall i,
  drop i all = fs ->
  (forall k fType, (i <= k)%nat -> all !! k = Some fType ->
     exists x, r !! k = Some x
       /\ assign (fieldFlag fl fType) (Type_ fType) (fieldKey fType) x
            (index m (fieldKey fType)) = Done x) ->
  structFields assign fl m fs i r = Done r.
Proof.
  induction fs as [|g fs IH]; intros i Hdrop Hfix; [reflexivity|].
  assert (Hg : all !! i = Some g).
  { rewrite <- (Nat.add_0_r i), <- lookup_drop, Hdrop. reflexivity. }
  assert (Hfs : drop (S i) all = fs).
  { rewrite (drop_S _ _ _ Hg) in Hdrop. now injection Hdrop. }
  destruct (Hfix i g (le_n i) Hg) as (x & Hx & Ha).
  simpl. rewrite Hx, Ha, (list_insert_id _ _ _ Hx).
  apply IH; [exact Hfs|]. intros k fType Hk. apply Hfix. lia.
Qed.

(** Mapping is idempotent where no hook is involved: a record that [Get]
    has mapped from a fields map is left as it is by mapping it from the same
    fields map again.  And a nested slot that maps is overwritten as a whole:
    what it gives does not depend on what the slot held. *)
Theorem mapping_again_changes_nothing :
  (forall selfParse fields s s' Fields,
     hookfree (TStruct None fields) ->
     hasType (TStruct selfParse fields) s = true ->
     getRecord (TStruct selfParse fields) s Fields = Done s' ->
     getRecord (TStruct selfParse fields) s' Fields = Done s')
  /\ (forall fl t key cur1 cur2 v x,
        hookfree t -> hasType t cur1 = true -> hasType t cur2 = true ->
        assignNested fl t key cur1 v = Done x ->
        assignNested fl t key cur2 v = Done x).
Proof.
  split.
  - intros selfParse fields s s' Fields Hfree Hs.
    apply hasType_struct in Hs as (vals & -> & Hty). unfold getRecord.
    rewrite getFields_as_structFields.
    pose proof (structFields_result assignPresent flagRW Fields fields vals)
      as Hres.
    destruct (structFields assignPresent flagRW Fields fields 0 vals)
      as [r|msg r]; [|discriminate].
    intros [= <-]. rewrite getFields_as_structFields.
    destruct Hres as (_ & _ & Hmapped).
    rewrite (structFields_fixed assignPresent flagRW Fields fields r fields 0
               eq_refl); [reflexivity|].
    intros k fType _ Hk. destruct (Hmapped k fType Hk) as (f & x & Hf & Ha & Hx).
    exists x. split; [exact Hx|].
    apply hookfree_fields in Hfree.
    apply (assignPresent_overwrite _ _ _ f); [|
      exact (Forall2_lookup_lr _ _ _ _ _ _ Hty Hk Hf) | exact Ha].
    apply (proj1 (Forall_lookup _ _) Hfree k fType Hk).
  - intros fl t key cur1 cur2 v x Hfree. now apply assignNested_overwrite.
Qed.

End OverwriteFacts.

Lemma mapping_again_changes_nothing_witness :
  getRecord (H := samplePlatform) ThumbRecord
    (VStruct [VString "Tom"; VStruct [VString "a.png"; VInt 2; VInt 0]])
    {[ "Name" := AString "Tom";
       "Thumbnail" := AMap {[ "URL" := AString "a.png";
                              "Width" := AFloat64 (S754_finite false 5 (-1));
                              "Height" := AFloat64 (S754_zero false) ]} ]}
  = Done (VStruct [VString "Tom"; VStruct [VString "a.png"; VInt 2; VInt 0]]).
Proof.
  apply (proj1 (mapping_again_changes_nothing (H := samplePlatform)) None _
           (zero ThumbRecord)).
  - cbv. tauto.
  - reflexivity.
  - vm_compute. reflexivity.
Defined.

(** * The column a panic names *)

Section MismatchFacts.
Context `{Platform}.

(** A loop over [fs1 ++ fs2] is the loop over [fs1] followed, when that ends
    normally, by the loop over [fs2] on what it left. *)
Lemma structFields_app assign fl m fs1 fs2 : forall i vals,
  structFields assign fl m (fs1 ++ fs2) i vals =
  match structFields assign fl m fs1 i vals with
  | Done vals1 => structFields assign fl m fs2 (i + length fs1) vals1
  | Panic msg vals1 => Panic msg vals1
  end.
Proof.
  induction fs1 as [|g fs1 IH]; intros i vals.
  - simpl. now rewrite Nat.add_0_r.
  - simpl. destruct (vals !! i) as [f|]; [|reflexivity].
    destruct (assign (fieldFlag fl g) (Type_ g) (fieldKey g) f
                (index m (fieldKey g)));
      [|reflexivity].
    rewrite IH. now rewrite Nat.add_succ_r.
Qed.

(** A value of the wrong JSON type, at the top level. *)
Lemma assignPresent_mismatch fl t key f v :
  hookless t -> v <> Nil -> accepts t v = false ->
  assignPresent fl t key f v =
  Panic (match t with
         | TOther _ => unhandledCase key (kindString t)
         | _ => parseError key (namedKind t)
         end) f.
Proof.
  intros Hh Hv Ha.
  destruct t as [| | | | | typ | elem | [h|] fs | k]; try contradiction;
    destruct v; try discriminate; try reflexivity; now destruct Hv.
Qed.

(** The first column whose value is of the wrong JSON type is the column the
    panic of [Get] names: when the columns before it map, leaving [vals1],
    the mapping panics with "PARSE ERROR: could not parse column '<key>' as
    <kind>", where a [float64] column is named as "int", and the struct is
    left as [vals1], the failing field and those after it untouched. *)
Theorem first_mismatch_names_column
  selfParse pre fType post vals vals1 Fields :
  getFields Fields pre 0 vals = Done vals1 ->
  (length pre < length vals)%nat ->
  hookless (Type_ fType) ->
  (forall kind, Type_ fType <> TOther kind) ->
  index Fields (fieldKey fType) <> Nil ->
  accepts (Type_ fType) (index Fields (fieldKey fType)) = false ->
  getRecord (TStruct selfParse (pre ++ fType :: post)) (VStruct vals) Fields
  = Panic ("PARSE ERROR: could not parse column '" +:+ fieldKey fType
           +:+ "' as " +:+ namedKind (Type_ fType))
      (VStruct vals1).
Proof.
  intros Hpre Hlen Hh Hk Hv Ha. unfold getRecord.
  rewrite getFields_as_structFields, structFields_app.
  rewrite <- getFields_as_structFields, Hpre. cbn [structFields].
  pose proof (structFields_result assignPresent flagRW Fields pre vals)
    as (Hl & _).
  rewrite <- getFields_as_structFields, Hpre in Hl. cbn [stateOf] in Hl.
  destruct (lookup_lt_is_Some_2 vals1 (0 + length pre)) as [f Hf]; [simpl; lia|].
  rewrite Hf, (assignPresent_mismatch _ _ _ _ _ Hh Hv Ha).
  rewrite (list_insert_id _ _ _ Hf). unfold parseError.
  destruct (Type_ fType); try reflexivity. now destruct (Hk kind).
Qed.

(** An API error at the level of [Get]: the request error of the transport
    is what [Get] returns, with no response, and nothing is stored. *)
Theorem Get_on_error_envelope r id options st c' Do b d type message :
  checkSetup (client st) = Done c' ->
  url_error (URL (newRequest c' (path_join (name r) id) options)) = None ->
  HTTPClient c' = Some Do ->
  Do (newRequest c' (path_join (name r) id) options) = Body b ->
  json_parse b = Some d ->
  errorEnvelope d type message ->
  type <> "" ->
  (Get r id options st).1 = Return (None, Some (ErrClientRequestError message))
  /\ heap (Get r id options st).2 = heap st.
Proof.
  intros Hs Hu Hh Hd Hp He Hty. unfold Get.
  pose proof (RequestBytes_body "GET" (path_join (name r) id) options (client st)
                c' (world st) Do b Hs Hu Hh Hd) as Hr.
  rewrite (checkErrorResponse_envelope _ _ _ _ Hp He Hty) in Hr.
  destruct (RequestBytes _ _ _ _ _) as [[res c] w]. simpl in Hr. subst res.
  split; reflexivity.
Qed.

End MismatchFacts.

Lemma first_mismatch_names_column_witness :
  getRecord (H := samplePlatform)
    (TStruct None [mkField "Name" None TString; mkField "Score" None TFloat64;
                   mkField "Done" None TBool])
    (VStruct [VString ""; VFloat64 (S754_zero false); VBool false])
    {[ "Name" := AString "Tom"; "Score" := AString "high"; "Done" := ABool true ]}
  = Panic "PARSE ERROR: could not parse column 'Score' as int"
      (VStruct [VString "Tom"; VFloat64 (S754_zero false); VBool false]).
Proof.
  apply (first_mismatch_names_column (H := samplePlatform) None
           [mkField "Name" None TString] (mkField "Score" None TFloat64)
           [mkField "Done" None TBool]);
    first [reflexivity | discriminate | exact I | simpl; lia].
Defined.

Lemma Get_on_error_envelope_witness :
  (Get (H := samplePlatform) (NewResource "Main" (NameRecord, 1%positive))
     "rec1" None
     {| client := {| APIKey := "key123"; BaseID := "appXXX"; Version := "";
                     RootURL := "";
                     HTTPClient := Some (fun _ => Body (list_byte_of_string errorBody)) |};
        heap := {[ 1%positive := zero NameRecord ]}; world := sampleWorld |}).1
  = Return (None, Some (ErrClientRequestError "bad formula")).
Proof.
  eapply (Get_on_error_envelope (H := samplePlatform));
    try reflexivity.
  - eexists _, _. repeat split; reflexivity.
  - discriminate.
Defined.
